(** * take-turns: the assignment-schedule engine of [main.py]

    A shallow embedding of the schedule engine (the module-level lists
    [USERS] and [DATES] and the functions working on them) together with the
    properties stated about it.

    Conventions of the embedding.
    - A [datetime.date] is represented by its proleptic Gregorian ordinal
      ([date.toordinal()], 0001-01-01 being day 1).  Comparing two dates,
      [(a - b).days] and [d + timedelta(n)] are then the integer operations
      on ordinals.  A [datetime.date] lies between 0001-01-01 and
      9999-12-31 ([date_valid]) and a [timedelta] holds at most 999999999
      days: [timedelta] and [date_add] raise [OverflowError] beyond.
    - The module globals [USERS] and [DATES] and the stored object are
      threaded through an exception-and-state monad: a raised exception
      keeps whatever had been mutated before it.
    - [datetime.date.today()] is an explicit argument [today] of every
      function that reads the clock.
    - The store is the single object [DATAFILE] (the bucket blob or the
      local file); reading and writing it do not fail. *)

From Stdlib Require Import ZArith Lia String Ascii.
From stdpp Require Import base numbers list sets strings.

Set Warnings "-clear-no-such-hyp".
Local Open Scope Z_scope.

(** ** Exceptions and results *)

Inductive exn : Type :=
  | StopIteration
  | KeyError
  | IndexError
  | ValueError
  | TypeError
  | AttributeError
  | ZeroDivisionError
  | OverflowError
  | HTTPException (code : Z).

Inductive result (A : Type) : Type :=
  | Ok (a : A)
  | Raise (e : exn).
Arguments Ok {A} a.
Arguments Raise {A} e.

Definition rbind {A B} (r : result A) (k : A → result B) : result B :=
  match r with
  | Ok a => k a
  | Raise e => Raise e
  end.

Definition of_option {A} (e : exn) (o : option A) : result A :=
  match o with
  | Some a => Ok a
  | None => Raise e
  end.

(** [[f(x) for x in l]]: the first exception raised ends the loop. *)
Fixpoint result_mapM {A B} (f : A → result B) (l : list A) : result (list B) :=
  match l with
  | [] => Ok []
  | x :: rest =>
      rbind (f x) (λ y, rbind (result_mapM f rest) (λ ys, Ok (y :: ys)))
  end.

(** ** Dates and configuration *)

Abbreviation date := Z.

(** [date.weekday()]: Monday is 0, Sunday is 6. *)
Definition weekday (d : date) : Z := (d + 6) `mod` 7.

(** Python's [%] on integers. *)
Definition py_mod (a b : Z) : result Z :=
  if decide (b = 0) then Raise ZeroDivisionError else Ok (a `mod` b).

(** ** The calendar behind [datetime.date]

    [isoformat] and [fromisoformat] go through the year/month/day fields of
    a date; the conversions follow CPython's reference implementation
    ([_ymd2ord] and [_ord2ymd] of [Lib/_pydatetime.py]). *)

Module Calendar.

Definition DAYS_IN_MONTH : list Z :=
  [-1; 31; 28; 31; 30; 31; 30; 31; 31; 30; 31; 30; 31].

Definition DAYS_BEFORE_MONTH : list Z :=
  [-1; 0; 31; 59; 90; 120; 151; 181; 212; 243; 273; 304; 334].

Definition table (t : list Z) (i : Z) : Z := default 0 (t !! Z.to_nat i).

Definition is_leap (year : Z) : bool :=
  bool_decide (year `mod` 4 = 0) &&
  (negb (bool_decide (year `mod` 100 = 0)) || bool_decide (year `mod` 400 = 0)).

Definition days_before_year (year : Z) : Z :=
  let y := year - 1 in
  y * 365 + y `div` 4 - y `div` 100 + y `div` 400.

Definition days_in_month (year month : Z) : Z :=
  if bool_decide (month = 2) && is_leap year then 29
  else table DAYS_IN_MONTH month.

Definition days_before_month (year month : Z) : Z :=
  table DAYS_BEFORE_MONTH month +
  (if bool_decide (month > 2) && is_leap year then 1 else 0).

Definition ymd2ord (year month day : Z) : Z :=
  days_before_year year + days_before_month year month + day.

Definition DI400Y : Z := 146097.
Definition DI100Y : Z := 36524.
Definition DI4Y : Z := 1461.

(** Month and day of the [n]-th day (counted from 0) of a year. *)
Definition month_day (leapyear : bool) (n : Z) : Z * Z :=
  let month := Z.shiftr (n + 50) 5 in
  let preceding :=
    table DAYS_BEFORE_MONTH month +
    (if bool_decide (month > 2) && leapyear then 1 else 0) in
  let '(month, preceding) :=
    if bool_decide (preceding > n)
    then (month - 1,
          preceding - (table DAYS_IN_MONTH (month - 1) +
                       (if bool_decide (month - 1 = 2) && leapyear then 1 else 0)))
    else (month, preceding) in
  (month, n - preceding + 1).

Definition ord2ymd (n : Z) : Z * Z * Z :=
  let n := n - 1 in
  let n400 := n `div` DI400Y in
  let n := n `mod` DI400Y in
  let year := n400 * 400 + 1 in
  let n100 := n `div` DI100Y in
  let n := n `mod` DI100Y in
  let n4 := n `div` DI4Y in
  let n := n `mod` DI4Y in
  let n1 := n `div` 365 in
  let n := n `mod` 365 in
  let year := year + (n100 * 100 + n4 * 4 + n1) in
  if bool_decide (n1 = 4) || bool_decide (n100 = 4) then (year - 1, 12, 31)
  else
    let leapyear :=
      bool_decide (n1 = 3) &&
      (negb (bool_decide (n4 = 24)) || bool_decide (n100 = 3)) in
    let '(month, day) := month_day leapyear n in
    (year, month, day).

(** What [month_day] has to satisfy on day [n] of a year. *)
Definition month_day_ok (leapyear : bool) (n : Z) : bool :=
  let '(month, day) := month_day leapyear n in
  bool_decide (1 ≤ month ≤ 12) &&
  bool_decide (1 ≤ day ≤
    if bool_decide (month = 2) && leapyear then 29 else table DAYS_IN_MONTH month) &&
  bool_decide (table DAYS_BEFORE_MONTH month
               + (if bool_decide (month > 2) && leapyear then 1 else 0) + day
               = n + 1).

Definition MINYEAR : Z := 1.
Definition MAXYEAR : Z := 9999.
(** [date.max.toordinal()] *)
Definition MAXORDINAL : Z := 3652059.

(** The check made by the [date(year, month, day)] constructor. *)
Definition check_date_fields (year month day : Z) : bool :=
  bool_decide (MINYEAR ≤ year ≤ MAXYEAR) &&
  bool_decide (1 ≤ month ≤ 12) &&
  bool_decide (1 ≤ day ≤ days_in_month year month).

Definition ascii_of_digit (d : Z) : ascii := ascii_of_N (Z.to_N (48 + d)).

Definition digit_of_ascii (c : ascii) : option Z :=
  let n := Z.of_N (N_of_ascii c) in
  if bool_decide (48 ≤ n ≤ 57) then Some (n - 48) else None.

(** ["%02d" % n] and ["%04d" % n], for [0 <= n < 100] and [0 <= n < 10000]. *)
Definition fmt2 (n : Z) (tail : string) : string :=
  String (ascii_of_digit ((n `div` 10) `mod` 10))
    (String (ascii_of_digit (n `mod` 10)) tail).

Definition fmt4 (n : Z) (tail : string) : string :=
  String (ascii_of_digit ((n `div` 1000) `mod` 10))
    (String (ascii_of_digit ((n `div` 100) `mod` 10)) (fmt2 n tail)).

Definition parse2 (c1 c2 : ascii) : option Z :=
  match digit_of_ascii c1, digit_of_ascii c2 with
  | Some a, Some b => Some (a * 10 + b)
  | _, _ => None
  end.

Definition parse4 (c1 c2 c3 c4 : ascii) : option Z :=
  match parse2 c1 c2, parse2 c3 c4 with
  | Some a, Some b => Some (a * 100 + b)
  | _, _ => None
  end.

End Calendar.

(** [date.isoformat()]: ["%04d-%02d-%02d" % (year, month, day)]. *)
Definition isoformat (d : date) : string :=
  let '(year, month, day) := Calendar.ord2ymd d in
  Calendar.fmt4 year
    (String "-" (Calendar.fmt2 month (String "-" (Calendar.fmt2 day EmptyString)))).

(** [date.fromisoformat(s)] for the extended format [YYYY-MM-DD], the one
    [isoformat] writes; every other string is a [ValueError]. *)
Definition fromisoformat (s : string) : result date :=
  match s with
  | String y1 (String y2 (String y3 (String y4 (String "-"
      (String m1 (String m2 (String "-"
        (String d1 (String d2 EmptyString))))))))) =>
      match Calendar.parse4 y1 y2 y3 y4, Calendar.parse2 m1 m2,
            Calendar.parse2 d1 d2 with
      | Some year, Some month, Some day =>
          if Calendar.check_date_fields year month day
          then Ok (Calendar.ymd2ord year month day)
          else Raise ValueError
      | _, _, _ => Raise ValueError
      end
  | _ => Raise ValueError
  end.

(** The dates [datetime.date] can hold: 0001-01-01 to 9999-12-31. *)
Definition date_valid (d : date) : Prop := 1 ≤ d ≤ Calendar.MAXORDINAL.

(** [datetime.timedelta(days)]: an [OverflowError] when the magnitude of
    [days] is above 999999999. *)
Definition timedelta (days : Z) : result Z :=
  if decide (-999999999 ≤ days ≤ 999999999) then Ok days
  else Raise OverflowError.

(** [d + datetime.timedelta(days)]: an [OverflowError] when the sum is
    not a date between 0001-01-01 and 9999-12-31. *)
Definition date_add (d : date) (days : Z) : result date :=
  rbind (timedelta days) (λ delta,
  if decide (1 ≤ d + delta ≤ Calendar.MAXORDINAL) then Ok (d + delta)
  else Raise OverflowError).

(** The three module constants read from the environment, with the types
    of their defaults ([0], [7], [False]). *)
Record config : Type := Config {
  ASSIGNMENT_WEEKDAY_START : Z;
  ASSIGNMENT_INTERVAL_DAYS : Z;
  ALLOW_ASSIGNMENT_TO_START_TODAY : bool
}.

Definition default_config : config := Config 0 7 false.

(** [main.py], lines 41-47. *)
Definition get_first_assignment_date (cfg : config) (today : date) : result date :=
  rbind (py_mod (ASSIGNMENT_WEEKDAY_START cfg - weekday today)
                (ASSIGNMENT_INTERVAL_DAYS cfg)) (λ diff_days,
  let diff_days :=
    if bool_decide (diff_days = 0) && negb (ALLOW_ASSIGNMENT_TO_START_TODAY cfg)
    then ASSIGNMENT_INTERVAL_DAYS cfg
    else diff_days in
  date_add today diff_days).

(** [main.py], lines 50-56: [dates[i] = start_date + i * interval]. *)
Definition initialize_assignment (cfg : config) (today : date)
    (users_list : list string) : result (list string * list date) :=
  rbind (get_first_assignment_date cfg today) (λ start_date,
  rbind (result_mapM
           (λ i : nat,
              date_add start_date (Z.of_nat i * ASSIGNMENT_INTERVAL_DAYS cfg))
           (seq 0 (length users_list))) (λ dates,
  Ok (users_list, dates))).

(** ** Python values and containers *)

(** The two kinds of values that meet in a comparison of [main.py]. *)
Inductive pyval : Type :=
  | PStr (s : string)
  | PDate (d : date).

(** [a <= b]: defined between two dates and between two strings, a
    [TypeError] between a string and a date. *)
Definition py_le (a b : pyval) : result bool :=
  match a, b with
  | PDate x, PDate y => Ok (bool_decide (x ≤ y))
  | PStr x, PStr y => Ok (String.leb x y)
  | _, _ => Raise TypeError
  end.

(** [x.isoformat()]: a [str] has no such attribute. *)
Definition py_isoformat (x : pyval) : result string :=
  match x with
  | PDate d => Ok (isoformat d)
  | PStr _ => Raise AttributeError
  end.

(** A [dict] with string keys: the keys are distinct and kept in insertion
    order. *)
Definition pydict (V : Type) : Type := list (string * V).

Fixpoint dict_setitem {V} (k : string) (v : V) (d : pydict V) : pydict V :=
  match d with
  | [] => [(k, v)]
  | (k', v') :: d' =>
      if decide (k' = k) then (k', v) :: d' else (k', v') :: dict_setitem k v d'
  end.

Fixpoint dict_getitem {V} (d : pydict V) (k : string) : result V :=
  match d with
  | [] => Raise KeyError
  | (k', v') :: d' => if decide (k' = k) then Ok v' else dict_getitem d' k
  end.

(** [dict(pairs)] *)
Definition dict_of_pairs {V} (pairs : list (string * V)) : pydict V :=
  foldl (λ d kv, dict_setitem kv.1 kv.2 d) [] pairs.

(** [l[i]] for [i >= 0] *)
Definition list_getitem {A} (l : list A) (i : nat) : result A :=
  of_option IndexError (l !! i).

(** [l[i] = v] for [i >= 0] *)
Definition list_setitem {A} (l : list A) (i : nat) (v : A) : result (list A) :=
  if decide (i < length l)%nat then Ok (<[i := v]> l) else Raise IndexError.

(** [l[b:e]] for [b, e >= 0] *)
Definition py_slice {A} (l : list A) (b e : nat) : list A :=
  take (e - b) (drop b l).

(** [l.index(x)] *)
Definition py_index (l : list string) (x : string) : result nat :=
  of_option ValueError (fst <$> list_find (λ y, y = x) l).

(** [l.remove(x)]: drops the first occurrence. *)
Fixpoint py_remove (l : list string) (x : string) : result (list string) :=
  match l with
  | [] => Raise ValueError
  | y :: l' =>
      if decide (y = x) then Ok l'
      else rbind (py_remove l' x) (λ r, Ok (y :: r))
  end.

(** [next(i for i, date in enumerate(dates) if P date)] *)
Definition first_index (P : date → Prop) `{!∀ x, Decision (P x)}
    (dates : list date) : result nat :=
  of_option StopIteration (fst <$> list_find P dates).

(** ** Serialization *)

(** What [data_to_dict] builds: a list of [{'name': .., 'date': ..}] rows
    when [wide], a dictionary from user name to date otherwise. *)
Inductive assignments : Type :=
  | Wide (rows : list (pydict string))
  | Narrow (d : pydict string).

(** The object under which the assignments are stored,
    [{'assignments': ...}].  [json.dumps] and [json.loads] are inverse on
    such objects, and the stored text is identified with the object it
    denotes. *)
Definition document : Type := pydict assignments.

(** [main.py], lines 59-60 and 63-64. *)
Fixpoint serialize_dates (dates_list : list pyval) : result (list string) :=
  match dates_list with
  | [] => Ok []
  | x :: rest =>
      rbind (py_isoformat x) (λ s,
      rbind (serialize_dates rest) (λ ss, Ok (s :: ss)))
  end.

Fixpoint deserialize_dates (dates_list : list string) : result (list date) :=
  match dates_list with
  | [] => Ok []
  | x :: rest =>
      rbind (fromisoformat x) (λ d,
      rbind (deserialize_dates rest) (λ ds, Ok (d :: ds)))
  end.

(** [main.py], lines 113-122. *)
Definition data_to_dict (users : list string) (dates : list pyval)
    (wide : bool) : result assignments :=
  rbind (serialize_dates dates) (λ s_dates,
  if wide
  then Ok (Wide ((λ nd : string * string,
                    [("name"%string, nd.1); ("date"%string, nd.2)])
                 <$> zip users s_dates))
  else Ok (Narrow (dict_of_pairs (zip users s_dates)))).

(** [main.py], lines 67-70. *)
Definition serialize_data (users : list string) (dates : list pyval)
    (wide : bool) : result document :=
  rbind (data_to_dict users dates wide) (λ a, Ok [("assignments"%string, a)]).

(** [a[k]] on the value of [data_to_dict]: a list cannot be indexed by a
    string. *)
Definition assignments_getitem (a : assignments) (k : string) : result string :=
  match a with
  | Narrow d => dict_getitem d k
  | Wide _ => Raise TypeError
  end.

(** [main.py], lines 73-77. *)
Definition deserialize_data (input_str : document)
    : result (list string * list date) :=
  rbind (dict_getitem input_str "assignments") (λ a,
  match a with
  | Wide _ => Raise AttributeError
  | Narrow d =>
      let users := d.*1 in
      let dates_str := d.*2 in
      rbind (deserialize_dates dates_str) (λ dates, Ok (users, dates))
  end).

(** ** The process state and its monad *)

(** The globals [USERS] and [DATES], and the stored object [DATAFILE]
    ([None] while it does not exist). *)
Record state : Type := State {
  USERS : list string;
  DATES : list date;
  DATAFILE : option document
}.

Definition M (A : Type) : Type := state → result A * state.

Definition ret {A} (a : A) : M A := λ st, (Ok a, st).

Definition bind {A B} (m : M A) (k : A → M B) : M B := λ st,
  match m st with
  | (Ok a, st') => k a st'
  | (Raise e, st') => (Raise e, st')
  end.

Definition raise {A} (e : exn) : M A := λ st, (Raise e, st).

Definition lift {A} (r : result A) : M A := λ st, (r, st).

Definition get : M state := λ st, (Ok st, st).

Definition set_USERS (users : list string) : M unit := λ st,
  (Ok (), State users (DATES st) (DATAFILE st)).

Definition set_DATES (dates : list date) : M unit := λ st,
  (Ok (), State (USERS st) dates (DATAFILE st)).

Definition set_DATAFILE (content : document) : M unit := λ st,
  (Ok (), State (USERS st) (DATES st) (Some content)).

(** [abort(code)] *)
Definition abort {A} (code : Z) : M A := raise (HTTPException code).

Declare Scope engine_scope.
Delimit Scope engine_scope with engine.
Notation "x <- m ;; k" := (bind m (λ x, k))
  (at level 20, m at level 99, k at level 200, only parsing) : engine_scope.
Notation "' pat <- m ;; k" := (bind m (λ x, match x with pat => k end))
  (at level 20, pat pattern, m at level 99, k at level 200, only parsing)
  : engine_scope.
Notation "m ;; k" := (bind m (λ _, k))
  (at level 100, k at level 200, only parsing, right associativity)
  : engine_scope.
Local Open Scope engine_scope.

(** ** Persistence *)

(** [main.py], lines 80-96 and 99-110. *)
Definition read_data : M (list string * list date) :=
  st <- get ;;
  match DATAFILE st with
  | Some content => lift (deserialize_data content)
  | None => ret ([], [])
  end.

Definition save_data (users : list string) (dates : list date) : M unit :=
  file_content <- lift (serialize_data users (PDate <$> dates) false) ;;
  set_DATAFILE file_content.

(** ** The engine *)

(** [main.py], lines 129-133. *)
Definition get_user (username : string) : M (list string * list string) :=
  st <- get ;;
  data_dict <- lift (data_to_dict (USERS st) (PDate <$> DATES st) false) ;;
  v <- lift (assignments_getitem data_dict username) ;;
  ret ([username], [v]).

(** [main.py], lines 136-144. *)
Definition add_user (cfg : config) (today : date) (username : string) : M unit :=
  st <- get ;;
  set_USERS (USERS st ++ [username]) ;;
  (if decide (0 < length (DATES st))%nat
   then
     last_date <- lift (of_option IndexError (last (DATES st))) ;;
     new_date <- lift (date_add last_date (ASSIGNMENT_INTERVAL_DAYS cfg)) ;;
     set_DATES (DATES st ++ [new_date])
   else
     first_date <- lift (get_first_assignment_date cfg today) ;;
     set_DATES [first_date]) ;;
  st <- get ;;
  save_data (USERS st) (DATES st).

(** [main.py], lines 147-160. *)
Definition delete_user (today : date) (username : string) : M unit :=
  '(users, dates) <- get_user username ;;
  assignment_date <- lift (list_getitem dates 0) ;;
  past <- lift (py_le (PStr assignment_date) (PDate today)) ;;
  st <- get ;;
  (if past : bool
   then set_DATES (drop 1 (DATES st))
   else set_DATES (take (length (DATES st) - 1) (DATES st))) ;;
  users' <- lift (py_remove (USERS st) username) ;;
  set_USERS users' ;;
  st <- get ;;
  save_data (USERS st) (DATES st).

(** [main.py], lines 163-167. *)
Definition regenerate (cfg : config) (today : date) (users : list string)
    : M unit :=
  '(users', dates') <- lift (initialize_assignment cfg today users) ;;
  set_USERS users' ;;
  set_DATES dates' ;;
  save_data users' dates'.

(** [main.py], lines 170-185; [period_end] is [None] or a date, and a date
    is always true. *)
Definition lookup (period_begin : date) (period_end : option date)
    : M (list string * list date) :=
  st <- get ;;
  match first_index (λ d, period_begin ≤ d) (DATES st) with
  | Raise _ => ret ([], [])
  | Ok index_begin =>
      match period_end with
      | None =>
          u <- lift (list_getitem (USERS st) index_begin) ;;
          d <- lift (list_getitem (DATES st) index_begin) ;;
          ret ([u], [d])
      | Some period_end =>
          index_end <- lift (first_index (λ d, period_end < d) (DATES st)) ;;
          ret (py_slice (USERS st) index_begin index_end,
               py_slice (DATES st) index_begin index_end)
      end
  end.

(** [main.py], lines 188-209. *)
Definition delay (today : date) (delay_all : bool) (delay_days : Z) : M unit :=
  st <- get ;;
  next_index <- lift (first_index (λ d, today < d) (DATES st)) ;;
  (if delay_all
   then
     delayed_dates <- lift (result_mapM (λ x, date_add x delay_days)
                                        (drop next_index (DATES st))) ;;
     set_DATES (take next_index (DATES st) ++ delayed_dates)
   else
     if decide (Z.of_nat next_index = Z.of_nat (length (DATES st)) - 1)
     then
       d <- lift (list_getitem (DATES st) next_index) ;;
       delayed <- lift (date_add d delay_days) ;;
       set_DATES (take next_index (DATES st) ++ [delayed])
     else
       day_to_delay <- lift (list_getitem (DATES st) next_index) ;;
       day_after <- lift (list_getitem (DATES st) (next_index + 1)) ;;
       if decide (day_after - day_to_delay ≤ delay_days)
       then abort 400
       else
         d <- lift (list_getitem (DATES st) next_index) ;;
         delayed <- lift (date_add d delay_days) ;;
         set_DATES (take next_index (DATES st) ++ [delayed]
                      ++ drop (next_index + 1) (DATES st))) ;;
  st <- get ;;
  save_data (USERS st) (DATES st).

(** [main.py], lines 212-218: the right-hand side is read first, then
    [USERS[user_2_index]] and [USERS[user_1_index]] are assigned in this
    order. *)
Definition swap (user_1 user_2 : string) : M unit :=
  st <- get ;;
  user_1_index <- lift (py_index (USERS st) user_1) ;;
  user_2_index <- lift (py_index (USERS st) user_2) ;;
  v1 <- lift (list_getitem (USERS st) user_1_index) ;;
  v2 <- lift (list_getitem (USERS st) user_2_index) ;;
  users' <- lift (list_setitem (USERS st) user_2_index v1) ;;
  users'' <- lift (list_setitem users' user_1_index v2) ;;
  set_USERS users'' ;;
  st <- get ;;
  save_data (USERS st) (DATES st).

(** ** The route of [/users/<username>] *)

Inductive method : Type := GET | PUT | DELETE.

(** What a view returns: a dictionary (sent as JSON) or a body with a
    status code. *)
Inductive response : Type :=
  | RespJson (body : document)
  | RespText (body : string) (status : Z).

(** [main.py], lines 236-262. *)
Definition get_user_route (cfg : config) (today : date) (m : method)
    (username : string) : M response :=
  st <- get ;;
  (if decide (USERS st = [])
   then '(users, dates) <- read_data ;; set_USERS users ;; set_DATES dates
   else ret ()) ;;
  st <- get ;;
  match m with
  | GET =>
      if decide (username ∈ USERS st) then
        '(users, dates) <- get_user username ;;
        body <- lift (serialize_data users (PStr <$> dates) true) ;;
        ret (RespJson body)
      else abort 404
  | DELETE =>
      if decide (username ∈ USERS st) then
        delete_user today username ;;
        ret (RespText "" 200)
      else abort 404
  | PUT =>
      if decide (username ∈ USERS st) then
        ret (RespText "User already in list" 204)
      else
        add_user cfg today username ;;
        st <- get ;;
        body <- lift (serialize_data (USERS st) (PDate <$> DATES st) true) ;;
        ret (RespJson body)
  end.

(** ** Reachable schedules *)

(** The five mutating operations of the engine. *)
Inductive op : Type :=
  | OpInitialize (users : list string)
  | OpAddUser (username : string)
  | OpDeleteUser (username : string)
  | OpDelay (delay_all : bool) (delay_days : Z)
  | OpSwap (user_1 user_2 : string).

Definition run_op (cfg : config) (today : date) (o : op) : M unit :=
  match o with
  | OpInitialize users => regenerate cfg today users
  | OpAddUser username => add_user cfg today username
  | OpDeleteUser username => delete_user today username
  | OpDelay delay_all delay_days => delay today delay_all delay_days
  | OpSwap user_1 user_2 => swap user_1 user_2
  end.

Definition empty_state : state := State [] [] None.

(** The states the process can be in after any sequence of operations from
    the empty schedule (a freshly initialized one is one [OpInitialize]
    away), each run on some day, whether it returned or raised. *)
Inductive reachable (cfg : config) : state → Prop :=
  | reachable_empty : reachable cfg empty_state
  | reachable_step st today o :
      reachable cfg st → reachable cfg (run_op cfg today o st).2.

(** The arguments under which the route layer and a forward-only delay call
    the engine: a duplicate-free list to initialize, a user name not yet
    present to add, a delay of at least zero days. *)
Definition guarded (st : state) (o : op) : Prop :=
  match o with
  | OpInitialize users => NoDup users
  | OpAddUser username => username ∉ USERS st
  | OpDelay _ delay_days => 0 ≤ delay_days
  | OpDeleteUser _ | OpSwap _ _ => True
  end.

(** [add_user] is the one operation that changes a global before it may
    raise: the name is appended before the new date is computed.  An
    operation [completes] unless it is such a call of [add_user], stopped by
    an exception. *)
Definition completes (cfg : config) (today : date) (o : op) (st : state)
    : Prop :=
  match o with
  | OpAddUser username => (add_user cfg today username st).1 = Ok ()
  | _ => True
  end.

(** The states reached by operations that complete, with any arguments. *)
Inductive reachable_completing (cfg : config) : state → Prop :=
  | reachable_completing_empty : reachable_completing cfg empty_state
  | reachable_completing_step st today o :
      reachable_completing cfg st → completes cfg today o st →
      reachable_completing cfg (run_op cfg today o st).2.

(** The states reached by operations that complete and are called with
    guarded arguments. *)
Inductive reachable_guarded (cfg : config) : state → Prop :=
  | reachable_guarded_empty : reachable_guarded cfg empty_state
  | reachable_guarded_step st today o :
      reachable_guarded cfg st → completes cfg today o st → guarded st o →
      reachable_guarded cfg (run_op cfg today o st).2.

(** [dates] is non-decreasing. *)
Definition non_decreasing (dates : list date) : Prop :=
  ∀ i j x y, dates !! i = Some x → dates !! j = Some y → (i ≤ j)%nat → x ≤ y.

(** The invariant of the data model. *)
Definition schedule_invariant (st : state) : Prop :=
  length (USERS st) = length (DATES st) ∧
  non_decreasing (DATES st) ∧
  NoDup (USERS st).

(** ** The other routes *)

(** [main.py], lines 125-126. *)
Definition to_date (str : string) : result date := fromisoformat str.

(** The two lines every route that works on the globals starts with:
    [if not USERS: USERS, DATES = read_data()]. *)
Definition load_if_empty : M unit :=
  st <- get ;;
  if decide (USERS st = [])
  then '(users, dates) <- read_data ;; set_USERS users ;; set_DATES dates
  else ret ().

(** [request.args.get(key, default=default, type=type)], [arg] being the
    first value sent for the key: a missing value and a value on which
    [type] raises [ValueError] both give [default]. *)
Definition args_get {A} (arg : option string) (default : A)
    (type : string → result A) : result A :=
  match arg with
  | None => Ok default
  | Some s =>
      match type s with
      | Ok v => Ok v
      | Raise ValueError => Ok default
      | Raise e => Raise e
      end
  end.

(** [main.py], lines 225-233. *)
Definition show_all : M response :=
  '(users, dates) <- read_data ;;
  body <- lift (serialize_data users (PDate <$> dates) true) ;;
  ret (RespJson body).

(** [main.py], lines 265-279. *)
Definition regenerate_route (cfg : config) (today : date) : M response :=
  load_if_empty ;;
  st <- get ;;
  regenerate cfg today (USERS st) ;;
  st <- get ;;
  body <- lift (serialize_data (USERS st) (PDate <$> DATES st) true) ;;
  ret (RespJson body).

(** [main.py], lines 282-299; [from_arg] and [to_arg] are the query
    parameters [from] and [to]. *)
Definition lookup_route (today : date) (from_arg to_arg : option string)
    : M response :=
  load_if_empty ;;
  period_begin <- lift (args_get from_arg today to_date) ;;
  period_end <- lift (args_get to_arg None (λ s, rbind (to_date s) (λ d, Ok (Some d)))) ;;
  '(users, dates) <- lookup period_begin period_end ;;
  body <- lift (serialize_data users (PDate <$> dates) true) ;;
  ret (RespJson body).

(** [main.py], lines 328-344; [swap_users] is
    [request.args.getlist('user')]. *)
Definition swap_route (swap_users : list string) : M response :=
  load_if_empty ;;
  match swap_users with
  | [user_1; user_2] =>
      swap user_1 user_2 ;;
      st <- get ;;
      body <- lift (serialize_data (USERS st) (PDate <$> DATES st) true) ;;
      ret (RespJson body)
  | _ => abort 400
  end.

(** The rows [serialize_data] sends for a schedule. *)
Definition rows (users : list string) (dates : list date) : document :=
  [("assignments"%string,
    Wide ((λ nd : string * string, [("name"%string, nd.1); ("date"%string, nd.2)])
            <$> zip users (isoformat <$> dates)))].

(** ** Auxiliary notions for the statements *)

(** [d] is the first date from [lo] on that falls on weekday [anchor]. *)
Definition first_anchor_date_from (lo : date) (anchor : Z) (d : date) : Prop :=
  lo ≤ d ∧ weekday d = anchor ∧ ∀ d', lo ≤ d' < d → weekday d' ≠ anchor.

(** The number of days to add to [today], in the words of the
    specification: [(anchor - today.weekday()) mod interval], forced to the
    interval when it is 0 and starting today is not allowed. *)
Definition first_diff_days (cfg : config) (today : date) : Z :=
  let diff := (ASSIGNMENT_WEEKDAY_START cfg - weekday today)
                `mod` ASSIGNMENT_INTERVAL_DAYS cfg in
  if bool_decide (diff = 0) && negb (ALLOW_ASSIGNMENT_TO_START_TODAY cfg)
  then ASSIGNMENT_INTERVAL_DAYS cfg else diff.

(** The object [save_data] writes for a schedule. *)
Definition snapshot (users : list string) (dates : list date) : document :=
  [("assignments"%string, Narrow (dict_of_pairs (zip users (isoformat <$> dates))))].

Definition saved (users : list string) (dates : list date) : result () * state :=
  (Ok (), State users dates (Some (snapshot users dates))).

(** [i] is the first index of [dates] holding a date after [today], and
    that date is [x]. *)
Definition first_after (today : date) (dates : list date) (i : nat) (x : date)
    : Prop :=
  dates !! i = Some x ∧ today < x ∧
  ∀ j y, dates !! j = Some y → (j < i)%nat → y ≤ today.

(** [x] is what [save_data] writes for a schedule that satisfies the
    invariant of the data model. *)
Definition persisted (x : document) : Prop :=
  ∃ st, schedule_invariant st ∧ Forall date_valid (DATES st) ∧
        DATAFILE (save_data (USERS st) (DATES st) st).2 = Some x.

(** Load a stored object and serialize the result the way [save_data]
    does. *)
Definition reserialize (x : document) : result document :=
  rbind (deserialize_data x) (λ ud,
  serialize_data ud.1 (PDate <$> ud.2) false).

(** The date [add_user] computes for the new user. *)
Definition new_date_for (cfg : config) (today : date) (st : state)
    : result date :=
  match last (DATES st) with
  | Some last_date => date_add last_date (ASSIGNMENT_INTERVAL_DAYS cfg)
  | None => get_first_assignment_date cfg today
  end.

(** ** Sample schedules *)

(** Wednesday 2026-11-04 and the Mondays around it. *)
Definition wed_2026_11_04 : date := 739924.
Definition mon_2026_11_02 : date := 739922.
Definition mon_2026_11_09 : date := 739929.
Definition mon_2026_11_16 : date := 739936.

(** [{A: 2026-11-02, B: 2026-11-09, C: 2026-11-16}], not yet stored. *)
Definition abc_state : state :=
  State ["A"; "B"; "C"]%string [mon_2026_11_02; mon_2026_11_09; mon_2026_11_16] None.

(** A schedule that already holds [A]. *)
Definition a_state : state := State ["A"%string] [mon_2026_11_09] None.

(** A run from the empty schedule: add [A], add [A] again, then on
    2026-11-10 delay the next assignment by -8 days. *)
Definition run_add_add_delay : state :=
  (run_op default_config (mon_2026_11_09 + 1) (OpDelay false (-8))
    (run_op default_config wed_2026_11_04 (OpAddUser "A")
      (run_op default_config wed_2026_11_04 (OpAddUser "A") empty_state).2).2).2.

(** A run from the empty schedule, all on 2026-11-04: add [A], delay its
    assignment by 2912130 days, to 9999-12-31, then add [B]. *)
Definition run_add_delay_add : state :=
  (run_op default_config wed_2026_11_04 (OpAddUser "B")
    (run_op default_config wed_2026_11_04 (OpDelay false 2912130)
      (run_op default_config wed_2026_11_04 (OpAddUser "A") empty_state).2).2).2.

(** * Properties *)

(** ** Date arithmetic *)

Lemma date_add_Ok d days :
  -999999999 ≤ days ≤ 999999999 → date_valid (d + days) →
  date_add d days = Ok (d + days).
Proof.
  intros Hdays Hvalid. unfold date_add, timedelta.
  rewrite decide_True by done. simpl. by rewrite decide_True.
Qed.

(** Between two dates of the calendar the difference fits a [timedelta]. *)
Lemma date_add_valid d days :
  date_valid d → date_valid (d + days) → date_add d days = Ok (d + days).
Proof.
  intros Hd Hvalid. apply date_add_Ok; [|done].
  unfold date_valid, Calendar.MAXORDINAL in *. lia.
Qed.

Lemma date_add_Ok_inv d days r :
  date_add d days = Ok r →
  r = d + days ∧ date_valid r ∧ -999999999 ≤ days ≤ 999999999.
Proof.
  unfold date_add, timedelta.
  destruct (decide (-999999999 ≤ days ≤ 999999999)); simpl; [|done].
  destruct (decide (1 ≤ d + days ≤ Calendar.MAXORDINAL)); [|done].
  by intros [= <-].
Qed.

Lemma date_add_Raise d days e : date_add d days = Raise e → e = OverflowError.
Proof.
  unfold date_add, timedelta.
  destruct (decide (-999999999 ≤ days ≤ 999999999)); simpl; [|by intros [= <-]].
  destruct (decide (1 ≤ d + days ≤ Calendar.MAXORDINAL)); [done|by intros [= <-]].
Qed.

Lemma date_add_out_of_range d days :
  ¬ date_valid (d + days) → date_add d days = Raise OverflowError.
Proof.
  intros Hout. destruct (date_add d days) as [r|e] eqn:Hadd.
  - apply date_add_Ok_inv in Hadd as (-> & Hvalid & _). done.
  - by rewrite (date_add_Raise _ _ _ Hadd).
Qed.

Lemma result_mapM_Ok {A B} (f : A → result B) (g : A → B) (l : list A) :
  Forall (λ x, f x = Ok (g x)) l → result_mapM f l = Ok (g <$> l).
Proof.
  induction 1 as [|x l Hx _ IH]; [done|]. simpl. by rewrite Hx, IH.
Qed.

Lemma result_mapM_Ok_inv {A B} (f : A → result B) (g : A → B) l l' :
  (∀ x r, f x = Ok r → r = g x) →
  result_mapM f l = Ok l' →
  l' = g <$> l ∧ Forall (λ x, f x = Ok (g x)) l.
Proof.
  intros Hf. revert l'. induction l as [|x l IH]; intros l'; simpl.
  - by intros [= <-].
  - destruct (f x) as [y|] eqn:Hx; [|done]. simpl.
    destruct (result_mapM f l) as [ys|]; [|done]. simpl. intros [= <-].
    destruct (IH ys eq_refl) as [-> Hall]. pose proof (Hf _ _ Hx) as ->.
    split; [done|]. by constructor.
Qed.

Lemma result_mapM_Raise {A B} (f : A → result B) l e :
  result_mapM f l = Raise e → ∃ x, x ∈ l ∧ f x = Raise e.
Proof.
  induction l as [|x l IH]; simpl; [done|].
  destruct (f x) as [y|e'] eqn:Hx; simpl.
  - destruct (result_mapM f l) as [ys|e']; [done|]. simpl. intros [= <-].
    destruct (IH eq_refl) as (z & Hz & Hfz). exists z. split; [|done].
    by apply list_elem_of_further.
  - intros [= <-]. exists x. split; [apply list_elem_of_here|done].
Qed.

(** Moving a list of dates by [days]: the result, when there is one. *)
Lemma shift_dates_Ok_inv (dates : list date) days dates' :
  result_mapM (λ x, date_add x days) dates = Ok dates' →
  dates' = (λ x, x + days) <$> dates ∧ Forall date_valid dates'.
Proof.
  intros Hmap.
  apply (result_mapM_Ok_inv _ (λ x, x + days)) in Hmap as [-> Hall].
  - split; [done|]. apply Forall_fmap. eapply Forall_impl; [done|].
    simpl. by intros x (_ & Hv & _)%date_add_Ok_inv.
  - by intros x r (-> & _)%date_add_Ok_inv.
Qed.

Lemma shift_dates_Raise (dates : list date) days e :
  result_mapM (λ x, date_add x days) dates = Raise e → e = OverflowError.
Proof.
  intros (x & _ & Hx)%result_mapM_Raise. by eapply date_add_Raise.
Qed.

Lemma shift_dates_Ok (dates : list date) days :
  Forall date_valid dates → Forall (λ d, date_valid (d + days)) dates →
  result_mapM (λ x, date_add x days) dates = Ok ((λ x, x + days) <$> dates).
Proof.
  intros Hvalid Hshift. apply result_mapM_Ok.
  rewrite Forall_forall in *. intros d Hd. apply date_add_valid; auto.
Qed.

(** ** The first assignment date: the formula *)

Lemma get_first_assignment_date_eq cfg today :
  ASSIGNMENT_INTERVAL_DAYS cfg ≠ 0 →
  get_first_assignment_date cfg today
  = date_add today (first_diff_days cfg today).
Proof.
  intros Hne. unfold get_first_assignment_date, first_diff_days, py_mod.
  destruct (decide (ASSIGNMENT_INTERVAL_DAYS cfg = 0)); [done|]. reflexivity.
Qed.

Lemma first_diff_days_bounds cfg today :
  0 < ASSIGNMENT_INTERVAL_DAYS cfg →
  0 ≤ first_diff_days cfg today ≤ ASSIGNMENT_INTERVAL_DAYS cfg ∧
  (ALLOW_ASSIGNMENT_TO_START_TODAY cfg = false → 0 < first_diff_days cfg today).
Proof.
  intros Hpos. unfold first_diff_days.
  pose proof (Z.mod_pos_bound
    (ASSIGNMENT_WEEKDAY_START cfg - weekday today) _ Hpos) as Hm.
  destruct (ALLOW_ASSIGNMENT_TO_START_TODAY cfg); simpl;
    rewrite ?andb_true_r, ?andb_false_r.
  - split; [lia|done].
  - case_bool_decide; split; try lia; intros _; lia.
Qed.

Lemma weekday_range d : 0 ≤ weekday d < 7.
Proof. unfold weekday. apply Z.mod_pos_bound. lia. Qed.

Lemma weekly_first_anchor cfg today :
  ASSIGNMENT_INTERVAL_DAYS cfg = 7 →
  0 ≤ ASSIGNMENT_WEEKDAY_START cfg ≤ 6 →
  first_anchor_date_from
    (if ALLOW_ASSIGNMENT_TO_START_TODAY cfg then today else today + 1)
    (ASSIGNMENT_WEEKDAY_START cfg)
    (today + first_diff_days cfg today).
Proof.
  intros H7 Ha. unfold first_anchor_date_from, first_diff_days, weekday.
  rewrite H7.
  destruct (ALLOW_ASSIGNMENT_TO_START_TODAY cfg); simpl;
    rewrite ?andb_true_r, ?andb_false_r; [|case_bool_decide];
    (split; [|split; [|intros d' Hd']]);
    Z.div_mod_to_equations; lia.
Qed.

Example isoformat_2026_11_04 : isoformat 739924 = "2026-11-04"%string.
Proof. reflexivity. Qed.
Example fromisoformat_2026_11_04 : fromisoformat "2026-11-04" = Ok 739924.
Proof. reflexivity. Qed.
Example isoformat_max : isoformat 3652059 = "9999-12-31"%string.
Proof. reflexivity. Qed.
Example isoformat_leap : isoformat (737430 + 54) = "2020-02-29"%string /\ isoformat 1 = "0001-01-01"%string /\ isoformat 730120 = "2000-01-01"%string
 /\ isoformat 730119 = "1999-12-31"%string /\  isoformat 730485 = "2000-12-31"%string /\ fromisoformat "2021-02-29" = Raise ValueError.
Proof. repeat split; reflexivity. Qed.

Lemma multiple_of_week_anchor cfg today :
  0 < ASSIGNMENT_INTERVAL_DAYS cfg →
  ASSIGNMENT_INTERVAL_DAYS cfg `mod` 7 = 0 →
  0 ≤ ASSIGNMENT_WEEKDAY_START cfg ≤ 6 →
  weekday (today + first_diff_days cfg today) = ASSIGNMENT_WEEKDAY_START cfg.
Proof.
  intros Hpos Hweek Ha.
  assert ((7 | ASSIGNMENT_INTERVAL_DAYS cfg)) as Hdiv
    by (apply Z.mod_divide; [lia|done]).
  pose proof (Z.mod_mod_divide (ASSIGNMENT_WEEKDAY_START cfg - weekday today)
    _ _ Hdiv) as Hmod.
  assert (first_diff_days cfg today `mod` 7
          = (ASSIGNMENT_WEEKDAY_START cfg - weekday today) `mod` 7) as Hdiff.
  { unfold first_diff_days.
    destruct (bool_decide _ && _) eqn:Hforced; [|done].
    apply andb_true_iff in Hforced as [Hzero%bool_decide_eq_true _].
    rewrite <-Hmod, Hzero, Hweek. reflexivity. }
  unfold weekday in *. revert Hdiff.
  generalize (first_diff_days cfg today). intros diff Hdiff.
  Z.div_mod_to_equations. lia.
Qed.

(** ** Serialization never fails on dates *)

Lemma serialize_dates_PDate (dates : list date) :
  serialize_dates (PDate <$> dates) = Ok (isoformat <$> dates).
Proof.
  induction dates as [|d dates IH]; [done|].
  rewrite !fmap_cons. cbn [serialize_dates py_isoformat rbind]. by rewrite IH.
Qed.

Lemma serialize_data_narrow users dates :
  serialize_data users (PDate <$> dates) false = Ok (snapshot users dates).
Proof.
  unfold serialize_data, data_to_dict. by rewrite serialize_dates_PDate.
Qed.

Lemma save_data_eq users dates st :
  save_data users dates st
  = (Ok (), State (USERS st) (DATES st) (Some (snapshot users dates))).
Proof.
  unfold save_data, bind, lift. by rewrite serialize_data_narrow.
Qed.

(** ** [first_index] *)

Lemma first_index_after today dates i x :
  first_after today dates i x →
  list_find (λ d, today < d) dates = Some (i, x).
Proof.
  intros (Hi & Hx & Hmin). apply list_find_Some. split_and!; [done..|].
  intros j y Hj Hlt. specialize (Hmin j y Hj Hlt). lia.
Qed.

Lemma first_index_after_inv today dates i x :
  list_find (λ d, today < d) dates = Some (i, x) →
  first_after today dates i x.
Proof.
  intros (Hi & Hx & Hmin)%list_find_Some. split_and!; [done..|].
  intros j y Hj Hlt. specialize (Hmin j y Hj Hlt). lia.
Qed.

Lemma first_index_none today dates :
  Forall (λ d, d ≤ today) dates ↔ list_find (λ d, today < d) dates = None.
Proof.
  rewrite list_find_None, !Forall_forall. split; intros H d Hd; specialize (H d Hd); lia.
Qed.

(** ** [delay], case by case *)

Lemma delay_cases today delay_all delay_days st :
  delay today delay_all delay_days st =
  match list_find (λ d, today < d) (DATES st) with
  | None => (Raise StopIteration, st)
  | Some (i, x) =>
      if delay_all then
        match result_mapM (λ d, date_add d delay_days) (drop i (DATES st)) with
        | Ok delayed_dates =>
            saved (USERS st) (take i (DATES st) ++ delayed_dates)
        | Raise e => (Raise e, st)
        end
      else if decide (S i = length (DATES st)) then
        match date_add x delay_days with
        | Ok delayed => saved (USERS st) (<[i := delayed]> (DATES st))
        | Raise e => (Raise e, st)
        end
      else
        match DATES st !! S i with
        | Some y =>
            if decide (y - x ≤ delay_days) then (Raise (HTTPException 400), st)
            else
              match date_add x delay_days with
              | Ok delayed => saved (USERS st) (<[i := delayed]> (DATES st))
              | Raise e => (Raise e, st)
              end
        | None => (Raise IndexError, st)
        end
  end.
Proof.
  unfold delay, bind, get, lift, first_index. simpl.
  destruct (list_find _ (DATES st)) as [[i x]|] eqn:Hfind; simpl; [|done].
  apply list_find_Some in Hfind as (Hi & _ & _).
  pose proof (lookup_lt_Some _ _ _ Hi) as Hlt.
  destruct delay_all; simpl.
  { destruct (result_mapM _ _) as [delayed|e]; [|done].
    unfold set_DATES. simpl. by rewrite save_data_eq. }
  unfold list_getitem. rewrite Hi. simpl.
  destruct (decide (Z.of_nat i = Z.of_nat (length (DATES st)) - 1)) as [He|He];
    destruct (decide (S i = length (DATES st))) as [He'|He']; try lia.
  - destruct (date_add x delay_days) as [delayed|e]; [|done].
    unfold set_DATES. simpl. rewrite save_data_eq. unfold saved. simpl.
    do 3 f_equal.
    all: rewrite (insert_take_drop _ _ _ Hlt), (drop_ge _ (S i)); [done|lia].
  - replace (i + 1)%nat with (S i) by lia.
    destruct (DATES st !! S i) as [y|] eqn:Hy; simpl; [|done].
    destruct (decide (y - x ≤ delay_days)); [done|].
    destruct (date_add x delay_days) as [delayed|e]; [|done].
    unfold set_DATES. simpl. rewrite save_data_eq.
    unfold saved. simpl. by rewrite (insert_take_drop _ _ _ Hlt).
Qed.

(** Whatever [delay] raises, the state is the one it started from. *)
Lemma delay_Raise today delay_all delay_days st e st' :
  delay today delay_all delay_days st = (Raise e, st') → st' = st.
Proof.
  rewrite delay_cases. unfold saved. intros H.
  repeat case_match; simplify_eq; done.
Qed.

(** C5. When no date of the schedule is after today, [delay] raises
    [StopIteration] (the engine's "no upcoming assignment" failure, not the
    [abort(400)] of a refused delay), whether [delay_all] is set or not, and
    leaves the state as it was. *)
Theorem delay_no_upcoming_assignment today delay_all delay_days st :
  Forall (λ d, d ≤ today) (DATES st) →
  delay today delay_all delay_days st = (Raise StopIteration, st) ∧
  StopIteration ≠ HTTPException 400.
Proof.
  intros Hpast%first_index_none. by rewrite delay_cases, Hpast.
Qed.

(** [StopIteration] is raised by [delay] in that case only. *)
Lemma delay_StopIteration_inv today delay_all delay_days st st' :
  delay today delay_all delay_days st = (Raise StopIteration, st') →
  Forall (λ d, d ≤ today) (DATES st).
Proof.
  rewrite delay_cases. intros H. apply first_index_none.
  destruct (list_find _ (DATES st)) as [[i x]|]; [exfalso|done].
  unfold saved in H.
  repeat case_match; simplify_eq;
    match goal with
    | H : date_add _ _ = Raise _ |- _ => by apply date_add_Raise in H
    | H : result_mapM _ _ = Raise _ |- _ => by apply shift_dates_Raise in H
    end.
Qed.

(** Counterexample to C4 as stated: on
    [{A: 2026-11-02, B: 2026-11-09, C: 2026-11-16}] with today 2026-11-04 the
    delay of -739929 days is below the gap of 7 days to the next
    assignment, yet the date of [B] is not moved: it would fall on the day
    before 0001-01-01, and [delay] ends in an [OverflowError]. *)
Lemma delay_before_calendar_raises :
  first_after wed_2026_11_04 (DATES abc_state) 1 mon_2026_11_09 ∧
  DATES abc_state !! 2%nat = Some mon_2026_11_16 ∧
  -739929 < mon_2026_11_16 - mon_2026_11_09 ∧
  delay wed_2026_11_04 false (-739929) abc_state
    = (Raise OverflowError, abc_state) ∧
  ¬ ∃ st', delay wed_2026_11_04 false (-739929) abc_state = (Ok (), st').
Proof.
  split_and!; try reflexivity.
  - split_and!; [reflexivity|reflexivity|].
    intros [|j] y Hy Hj; [|lia]. simpl in Hy. injection Hy as <-. discriminate.
  - intros [st' Hrun]. discriminate Hrun.
Qed.

(** C4, amended. When the first date after today, [dates[i]], has a
    successor [dates[i+1]] (both dates of the calendar),
    [delay(False, delay_days)] is refused with [abort(400)], state
    unchanged, exactly when [delay_days >= (dates[i+1] - dates[i]).days].
    Otherwise, when [dates[i] + delay_days] is not before 0001-01-01, it
    returns and the dates differ from the old ones at index [i] only, which
    holds [dates[i] + delay_days]; when it is before 0001-01-01, [delay]
    raises [OverflowError] and leaves the state as it was. *)
Theorem delay_next_window today delay_days st i x y :
  first_after today (DATES st) i x →
  DATES st !! S i = Some y →
  date_valid x → date_valid y →
  (y - x ≤ delay_days →
     delay today false delay_days st = (Raise (HTTPException 400), st)) ∧
  (delay_days < y - x → 1 ≤ x + delay_days →
     ∃ st', delay today false delay_days st = (Ok (), st') ∧
            USERS st' = USERS st ∧
            DATES st' = <[i := x + delay_days]> (DATES st)) ∧
  (delay_days < y - x → x + delay_days < 1 →
     delay today false delay_days st = (Raise OverflowError, st)) ∧
  ((delay today false delay_days st).1 = Raise (HTTPException 400)
     ↔ y - x ≤ delay_days).
Proof.
  intros Hfirst%first_index_after Hy Hx_valid Hy_valid.
  pose proof (lookup_lt_Some _ _ _ Hy) as Hlt.
  rewrite delay_cases, Hfirst, Hy.
  destruct (decide (S i = length (DATES st))) as [He|_]; [lia|].
  destruct (decide (y - x ≤ delay_days)) as [Hge|Hlt'].
  - split_and!; [done|lia|lia|done].
  - split_and!; [lia| | |].
    + intros _ Hlow. rewrite date_add_valid; [|done|].
      * eexists. by split_and!.
      * unfold date_valid in *. lia.
    + intros _ Hlow. rewrite date_add_out_of_range; [done|].
      unfold date_valid. lia.
    + split; [|lia]. intros Hres. exfalso.
      destruct (date_add x delay_days) as [r|e] eqn:Hadd; simpl in Hres; [done|].
      apply date_add_Raise in Hadd. congruence.
Qed.

(** C10. [delay] never changes [USERS], whatever its outcome; when it
    returns, [DATES] keeps its length and every date before the first one
    after today is unchanged. *)
Theorem delay_frame today delay_all delay_days st :
  USERS (delay today delay_all delay_days st).2 = USERS st ∧
  ((delay today delay_all delay_days st).1 = Ok () →
     length (DATES (delay today delay_all delay_days st).2)
       = length (DATES st) ∧
     ∃ i x, first_after today (DATES st) i x ∧
       ∀ j, (j < i)%nat →
         DATES (delay today delay_all delay_days st).2 !! j = DATES st !! j).
Proof.
  rewrite delay_cases.
  destruct (list_find _ (DATES st)) as [[i x]|] eqn:Hfind; [|done].
  pose proof (first_index_after_inv _ _ _ _ Hfind) as Hfirst.
  destruct Hfirst as (Hi & Hx & Hmin).
  pose proof (lookup_lt_Some _ _ _ Hi) as Hlt.
  assert (∀ z j, (j < i)%nat → <[i := z]> (DATES st) !! j = DATES st !! j)
    as Hins by (intros z j Hj; apply list_lookup_insert_ne; lia).
  destruct delay_all.
  - destruct (result_mapM _ _) as [delayed|e] eqn:Hmap; [|done].
    apply shift_dates_Ok_inv in Hmap as [-> _]. simpl.
    split; [done|]. intros _. split.
    + rewrite length_app, length_fmap, length_take, length_drop. lia.
    + exists i, x. split; [done|]. intros j Hj.
      rewrite lookup_app_l by (rewrite length_take; lia).
      by apply lookup_take_lt.
  - assert (∀ r : result date,
      USERS (match r with
             | Ok delayed => saved (USERS st) (<[i := delayed]> (DATES st))
             | Raise e => (Raise e, st)
             end).2 = USERS st ∧
      ((match r with
        | Ok delayed => saved (USERS st) (<[i := delayed]> (DATES st))
        | Raise e => (Raise e, st)
        end).1 = Ok () →
       length (DATES (match r with
             | Ok delayed => saved (USERS st) (<[i := delayed]> (DATES st))
             | Raise e => (Raise e, st)
             end).2) = length (DATES st) ∧
       ∃ i0 x0, first_after today (DATES st) i0 x0 ∧
         ∀ j, (j < i0)%nat →
           DATES (match r with
             | Ok delayed => saved (USERS st) (<[i := delayed]> (DATES st))
             | Raise e => (Raise e, st)
             end).2 !! j = DATES st !! j)) as Hshift.
    { intros [delayed|e]; simpl; (split; [done|]); [|done]. intros _.
      split; [by rewrite length_insert|]. exists i, x. split; [done|].
      by apply Hins. }
    destruct (decide (S i = _)); [apply Hshift|].
    destruct (DATES st !! S i) as [y|] eqn:Hy; [|done].
    destruct (decide (y - x ≤ delay_days)); [done|apply Hshift].
Qed.

(** ** [swap] *)

Lemma py_index_elem_of (l : list string) x :
  x ∈ l → ∃ i, list_find (λ y, y = x) l = Some (i, x).
Proof.
  intros Hx. destruct (list_find_elem_of (λ y, y = x) l x Hx eq_refl) as [[i y] Hf].
  exists i. pose proof Hf as (_ & -> & _)%list_find_Some. done.
Qed.

Lemma swap_eq st a b i j :
  list_find (λ y, y = a) (USERS st) = Some (i, a) →
  list_find (λ y, y = b) (USERS st) = Some (j, b) →
  swap a b st = saved (<[i := b]> (<[j := a]> (USERS st))) (DATES st).
Proof.
  intros Ha Hb. unfold swap, bind, get, lift, py_index. simpl.
  rewrite Ha, Hb. simpl.
  apply list_find_Some in Ha as (Hi & _ & _).
  apply list_find_Some in Hb as (Hj & _ & _).
  unfold list_getitem. rewrite Hi, Hj. simpl. unfold list_setitem.
  pose proof (lookup_lt_Some _ _ _ Hi). pose proof (lookup_lt_Some _ _ _ Hj).
  rewrite decide_True by done. simpl.
  rewrite decide_True by (by rewrite length_insert). simpl.
  unfold set_USERS. simpl. by rewrite save_data_eq.
Qed.

Lemma swapped_lookup (l : list string) a b i j k :
  l !! i = Some a → l !! j = Some b →
  <[i := b]> (<[j := a]> l) !! k =
    if decide (k = i) then Some b else if decide (k = j) then Some a else l !! k.
Proof.
  intros Hi Hj.
  pose proof (lookup_lt_Some _ _ _ Hi). pose proof (lookup_lt_Some _ _ _ Hj).
  destruct (decide (k = i)) as [->|Hki].
  - by rewrite list_lookup_insert_eq by (by rewrite length_insert).
  - rewrite list_lookup_insert_ne by done.
    destruct (decide (k = j)) as [->|Hkj].
    + by rewrite list_lookup_insert_eq.
    + by rewrite list_lookup_insert_ne.
Qed.

Lemma swapped_find (l : list string) a b i j :
  NoDup l → l !! i = Some a → l !! j = Some b →
  list_find (λ y, y = a) (<[i := b]> (<[j := a]> l)) = Some (j, a).
Proof.
  intros Hnd Hi Hj. apply list_find_Some. split_and!; [|done|].
  - rewrite (swapped_lookup l a b i j j Hi Hj).
    destruct (decide (j = i)) as [->|]; [congruence|]. by rewrite decide_True.
  - intros k y Hk Hlt ->. rewrite (swapped_lookup l a b i j k Hi Hj) in Hk.
    destruct (decide (k = i)) as [->|].
    + simplify_eq. assert (i = j) by (by eapply NoDup_lookup). lia.
    + destruct (decide (k = j)); [lia|].
      assert (k = i) by (by eapply NoDup_lookup). done.
Qed.

Lemma swapped_back (l : list string) a b i j :
  l !! i = Some a → l !! j = Some b →
  <[j := b]> (<[i := a]> (<[i := b]> (<[j := a]> l))) = l.
Proof.
  intros Hi Hj. apply list_eq. intros k.
  assert (<[i:=b]> (<[j:=a]> l) !! j = Some a) as Hj'.
  { rewrite (swapped_lookup _ _ _ i j j Hi Hj).
    destruct (decide (j = i)) as [->|]; [congruence|]. by rewrite decide_True. }
  assert (<[i:=b]> (<[j:=a]> l) !! i = Some b) as Hi'.
  { rewrite (swapped_lookup _ _ _ i j i Hi Hj). by rewrite decide_True. }
  rewrite (swapped_lookup _ _ _ j i k Hj' Hi').
  rewrite (swapped_lookup _ _ _ i j k Hi Hj).
  repeat case_decide; congruence.
Qed.

(** C7. With [user_1] and [user_2] both present, [swap] returns, leaves
    [DATES] as it is and exchanges the two names in [USERS]: the entry at
    the index of [user_1] becomes [user_2], the entry at the index of
    [user_2] becomes [user_1], every other entry stays.  When the names of
    the schedule are distinct, a second [swap] of the same pair restores the
    schedule; [swap(u, u)] leaves it as it is. *)
Theorem swap_exchanges st user_1 user_2 :
  user_1 ∈ USERS st → user_2 ∈ USERS st →
  ∃ i j st',
    py_index (USERS st) user_1 = Ok i ∧
    py_index (USERS st) user_2 = Ok j ∧
    swap user_1 user_2 st = (Ok (), st') ∧
    DATES st' = DATES st ∧
    length (USERS st') = length (USERS st) ∧
    USERS st' !! i = Some user_2 ∧
    USERS st' !! j = Some user_1 ∧
    (∀ k, k ≠ i → k ≠ j → USERS st' !! k = USERS st !! k) ∧
    (NoDup (USERS st) →
       ∃ st'', swap user_1 user_2 st' = (Ok (), st'') ∧
               USERS st'' = USERS st ∧ DATES st'' = DATES st) ∧
    (user_1 = user_2 → USERS st' = USERS st).
Proof.
  intros [i Ha]%py_index_elem_of [j Hb]%py_index_elem_of.
  pose proof Ha as (Hi & _ & _)%list_find_Some.
  pose proof Hb as (Hj & _ & _)%list_find_Some.
  exists i, j. eexists. unfold py_index. rewrite Ha, Hb.
  split_and!; [done|done|by apply swap_eq|done|..]; simpl.
  - by rewrite !length_insert.
  - rewrite (swapped_lookup _ _ _ i j i Hi Hj). by rewrite decide_True.
  - rewrite (swapped_lookup _ _ _ i j j Hi Hj).
    destruct (decide (j = i)) as [->|]; [congruence|]. by rewrite decide_True.
  - intros k Hki Hkj. rewrite (swapped_lookup _ _ _ i j k Hi Hj).
    by rewrite !decide_False.
  - intros Hnd. rewrite (swap_eq (State _ _ _) _ _ j i); simpl.
    + eexists. split; [done|]. simpl. split; [|done].
      by apply swapped_back.
    + by apply swapped_find.
    + destruct (decide (i = j)) as [->|Hij].
      { assert (user_1 = user_2) as -> by congruence. by apply swapped_find. }
      rewrite list_insert_insert_ne by done. by apply swapped_find.
  - intros <-. assert (i = j) as <- by congruence.
    rewrite list_insert_insert_eq. by apply list_insert_id.
Qed.

(** ** Dictionaries *)

Lemma dict_setitem_keys {V} k (v : V) d k' :
  k' ∈ (dict_setitem k v d).*1 ↔ k' = k ∨ k' ∈ d.*1.
Proof.
  induction d as [|[k0 v0] d IH]; simpl.
  - rewrite list_elem_of_singleton. set_solver.
  - destruct (decide (k0 = k)) as [->|Hne]; simpl.
    + set_solver.
    + rewrite !elem_of_cons, IH. naive_solver.
Qed.

Lemma dict_setitem_fresh {V} k (v : V) d :
  k ∉ d.*1 → dict_setitem k v d = d ++ [(k, v)].
Proof.
  induction d as [|[k0 v0] d IH]; simpl; [done|].
  intros Hk. destruct (decide (k0 = k)) as [->|Hne]; [set_solver|].
  rewrite IH; [done|set_solver].
Qed.

Lemma dict_of_pairs_keys {V} (pairs : list (string * V)) k :
  k ∈ (dict_of_pairs pairs).*1 ↔ k ∈ pairs.*1.
Proof.
  unfold dict_of_pairs.
  assert (∀ acc : pydict V,
    k ∈ (foldl (λ d kv, dict_setitem kv.1 kv.2 d) acc pairs).*1
    ↔ k ∈ acc.*1 ∨ k ∈ pairs.*1) as H.
  { induction pairs as [|[k0 v0] pairs IH]; intros acc; simpl.
    - set_solver.
    - rewrite IH, dict_setitem_keys. set_solver. }
  rewrite H. set_solver.
Qed.

Lemma dict_of_pairs_NoDup {V} (pairs : list (string * V)) :
  NoDup pairs.*1 → dict_of_pairs pairs = pairs.
Proof.
  unfold dict_of_pairs.
  assert (∀ acc : pydict V, NoDup (acc ++ pairs).*1 →
    foldl (λ d kv, dict_setitem kv.1 kv.2 d) acc pairs = acc ++ pairs) as H.
  { induction pairs as [|[k0 v0] pairs IH]; intros acc Hnd; simpl.
    - by rewrite app_nil_r.
    - rewrite dict_setitem_fresh.
      + rewrite IH; rewrite <-?app_assoc; done.
      + rewrite fmap_app in Hnd. apply NoDup_app in Hnd as (_ & Hd & _).
        intros Hin. apply (Hd _ Hin). simpl. left. }
  intros Hnd. by rewrite (H []).
Qed.

Lemma dict_getitem_is_Ok {V} (d : pydict V) k :
  k ∈ d.*1 → ∃ v, dict_getitem d k = Ok v.
Proof.
  induction d as [|[k0 v0] d IH]; simpl; [set_solver|].
  intros Hk. destruct (decide (k0 = k)); [by eexists|].
  apply IH. set_solver.
Qed.

Lemma dict_getitem_KeyError {V} (d : pydict V) k e :
  dict_getitem d k = Raise e → e = KeyError.
Proof.
  induction d as [|[k0 v0] d IH]; simpl; [congruence|].
  destruct (decide (k0 = k)); [done|auto].
Qed.

(** ** [get_user] and [delete_user] *)

Lemma data_to_dict_narrow users dates :
  data_to_dict users (PDate <$> dates) false
  = Ok (Narrow (dict_of_pairs (zip users (isoformat <$> dates)))).
Proof. unfold data_to_dict. by rewrite serialize_dates_PDate. Qed.

Lemma get_user_eq username st :
  get_user username st =
  match dict_getitem (dict_of_pairs (zip (USERS st) (isoformat <$> DATES st)))
          username with
  | Ok v => (Ok ([username], [v]), st)
  | Raise e => (Raise e, st)
  end.
Proof.
  unfold get_user, bind, get, lift. rewrite data_to_dict_narrow. simpl.
  by destruct (dict_getitem _ _).
Qed.

(** The date [get_user] hands back is the string written by [isoformat];
    comparing it with [date.today()] is a [TypeError], raised before
    [DATES] or [USERS] is touched. *)
Lemma delete_user_raises today username st :
  delete_user today username st = (Raise KeyError, st) ∨
  delete_user today username st = (Raise TypeError, st).
Proof.
  unfold delete_user, bind. rewrite get_user_eq.
  destruct (dict_getitem _ _) as [v|e] eqn:Hget; simpl.
  - by right.
  - left. by rewrite (dict_getitem_KeyError _ _ _ Hget).
Qed.

Lemma delete_user_present today username st :
  username ∈ USERS st → length (USERS st) = length (DATES st) →
  delete_user today username st = (Raise TypeError, st).
Proof.
  intros Hin Hlen. unfold delete_user, bind. rewrite get_user_eq.
  destruct (dict_getitem_is_Ok
    (dict_of_pairs (zip (USERS st) (isoformat <$> DATES st))) username)
    as [v ->]; [|done].
  apply dict_of_pairs_keys. rewrite fst_zip; [done|].
  rewrite length_fmap. lia.
Qed.

(** C1. On [{A: 2026-11-02, B: 2026-11-09, C: 2026-11-16}] with today
    2026-11-04, deleting [A] (whose date is past) and deleting [B] (whose
    date is to come) both end in a [TypeError] with [USERS] and [DATES]
    untouched: no date is dropped and nobody is removed. *)
Theorem delete_user_type_error :
  delete_user wed_2026_11_04 "A" abc_state = (Raise TypeError, abc_state) ∧
  delete_user wed_2026_11_04 "B" abc_state = (Raise TypeError, abc_state).
Proof. split; by apply delete_user_present; [set_solver|]. Qed.

(** ** [lookup] *)

Lemma lookup_slice period_begin period_end st i x j y :
  list_find (λ d, period_begin ≤ d) (DATES st) = Some (i, x) →
  list_find (λ d, period_end < d) (DATES st) = Some (j, y) →
  lookup period_begin (Some period_end) st
  = (Ok (py_slice (USERS st) i j, py_slice (DATES st) i j), st).
Proof.
  intros Hb He. unfold lookup, bind, get, lift, first_index.
  by rewrite Hb, He.
Qed.

(** With a date on or after [period_begin] but none after [period_end],
    the second [next(...)] has nothing to return: [StopIteration]. *)
Lemma lookup_no_later_date period_begin period_end st :
  Exists (λ d, period_begin ≤ d) (DATES st) →
  Forall (λ d, d ≤ period_end) (DATES st) →
  lookup period_begin (Some period_end) st = (Raise StopIteration, st).
Proof.
  intros Hex Hall. unfold lookup, bind, get, lift, first_index.
  apply Exists_exists in Hex as (d & Hd & Hle).
  destruct (list_find_elem_of (λ d, period_begin ≤ d) _ d Hd Hle) as [[i x] ->].
  apply first_index_none in Hall. by rewrite Hall.
Qed.

(** C2. On [{A: 2026-11-02, B: 2026-11-09, C: 2026-11-16}], looking up the
    period from 2026-11-04 to 2026-11-16, which no date exceeds, raises
    [StopIteration] instead of returning the entries of [B] and [C]. *)
Theorem lookup_to_end_of_list_raises :
  lookup wed_2026_11_04 (Some mon_2026_11_16) abc_state
  = (Raise StopIteration, abc_state).
Proof. reflexivity. Qed.

(** ** [add_user] *)

Lemma add_user_eq cfg today username st :
  add_user cfg today username st =
  match new_date_for cfg today st with
  | Ok new_date => saved (USERS st ++ [username]) (DATES st ++ [new_date])
  | Raise e =>
      (Raise e, State (USERS st ++ [username]) (DATES st) (DATAFILE st))
  end.
Proof.
  unfold add_user, new_date_for, bind, get, lift, set_USERS, set_DATES. simpl.
  destruct (DATES st) as [|d ds] eqn:Hd using rev_ind; simpl.
  - destruct (get_first_assignment_date cfg today); simpl; [|done].
    by rewrite save_data_eq.
  - rewrite decide_True by (rewrite length_app; simpl; lia).
    rewrite last_snoc. simpl.
    destruct (date_add d _); simpl; [|done]. by rewrite save_data_eq.
Qed.

(** Counterexample to C6 as stated: [add_user("A")] on a schedule that
    holds [A] returns normally and leaves [A] twice in [USERS]. *)
Lemma add_user_duplicate_accepted :
  "A"%string ∈ USERS a_state ∧
  add_user default_config wed_2026_11_04 "A" a_state
  = saved ["A"; "A"]%string [mon_2026_11_09; mon_2026_11_16] ∧
  ¬ ∃ e, add_user default_config wed_2026_11_04 "A" a_state = (Raise e, a_state).
Proof.
  split; [set_solver|]. split; [reflexivity|]. intros [e He]. discriminate He.
Qed.

(** C6, amended. For a user name already present, the engine's [add_user]
    does not refuse: it appends the name once more, and returns normally
    whenever the last date plus the interval is still a date of the
    calendar.  The duplicate is refused one level up, by the PUT branch of
    [get_user_route], which answers "User already in list" (204) without
    calling [add_user] and leaves the state as it was. *)
Theorem add_user_guarded_by_route cfg today username st :
  username ∈ USERS st →
  get_user_route cfg today PUT username st
    = (Ok (RespText "User already in list" 204), st) ∧
  USERS (add_user cfg today username st).2 = USERS st ++ [username] ∧
  (∀ last_date,
     last (DATES st) = Some last_date → date_valid last_date →
     date_valid (last_date + ASSIGNMENT_INTERVAL_DAYS cfg) →
     (add_user cfg today username st).1 = Ok ()).
Proof.
  intros Hin. split_and!.
  - unfold get_user_route, bind, get. simpl.
    destruct (decide (USERS st = [])) as [Hnil|_].
    { rewrite Hnil in Hin. set_solver. }
    simpl. by rewrite decide_True.
  - rewrite add_user_eq. by destruct (new_date_for cfg today st).
  - intros last_date Hlast Hvalid Hnew. rewrite add_user_eq.
    unfold new_date_for. rewrite Hlast. by rewrite date_add_valid.
Qed.

(** ** The first assignment date *)


(** With an interval that is no multiple of 7 the date need not fall on
    the anchor weekday: interval 3, anchor Monday, on Wednesday 2026-11-04
    gives the Thursday. *)
Lemma first_assignment_interval_3 :
  get_first_assignment_date (Config 0 3 true) wed_2026_11_04
    = Ok (wed_2026_11_04 + 1) ∧
  weekday (wed_2026_11_04 + 1) = 3.
Proof. split; reflexivity. Qed.



(** ** The operations, one by one *)

Lemma swap_cases user_1 user_2 st :
  swap user_1 user_2 st =
  match list_find (λ y, y = user_1) (USERS st),
        list_find (λ y, y = user_2) (USERS st) with
  | Some (i, _), Some (j, _) =>
      saved (<[i := user_2]> (<[j := user_1]> (USERS st))) (DATES st)
  | _, _ => (Raise ValueError, st)
  end.
Proof.
  destruct (list_find _ (USERS st)) as [[i a]|] eqn:Ha.
  - pose proof Ha as (_ & -> & _)%list_find_Some.
    destruct (list_find (λ y, y = user_2) (USERS st)) as [[j b]|] eqn:Hb.
    + pose proof Hb as (_ & -> & _)%list_find_Some. by apply swap_eq.
    + unfold swap, bind, get, lift, py_index. simpl. by rewrite Ha, Hb.
  - unfold swap, bind, get, lift, py_index. simpl. by rewrite Ha.
Qed.

Lemma regenerate_eq cfg today users st :
  regenerate cfg today users st =
  match initialize_assignment cfg today users with
  | Ok (users', dates') => saved users' dates'
  | Raise e => (Raise e, st)
  end.
Proof.
  unfold regenerate, bind, lift.
  destruct (initialize_assignment cfg today users) as [[users' dates']|e];
    [|done].
  unfold set_USERS, set_DATES. simpl. by rewrite save_data_eq.
Qed.

Lemma initialize_assignment_Ok_inv cfg today users users' dates' :
  initialize_assignment cfg today users = Ok (users', dates') →
  users' = users ∧
  ∃ start_date,
    get_first_assignment_date cfg today = Ok start_date ∧
    dates' = (λ i : nat, start_date + Z.of_nat i * ASSIGNMENT_INTERVAL_DAYS cfg)
               <$> seq 0 (length users) ∧
    Forall date_valid dates'.
Proof.
  unfold initialize_assignment.
  destruct (get_first_assignment_date cfg today) as [start_date|]; [|done].
  simpl. destruct (result_mapM _ _) as [dates|] eqn:Hmap; [|done]. simpl.
  intros [= <- <-]. split; [done|]. exists start_date. split; [done|].
  apply (result_mapM_Ok_inv _
    (λ i : nat, start_date + Z.of_nat i * ASSIGNMENT_INTERVAL_DAYS cfg))
    in Hmap as [-> Hall].
  - split; [done|]. apply Forall_fmap. eapply Forall_impl; [done|].
    simpl. by intros i (_ & Hv & _)%date_add_Ok_inv.
  - by intros i r (-> & _)%date_add_Ok_inv.
Qed.

Lemma initialize_assignment_Raise cfg today users e :
  ASSIGNMENT_INTERVAL_DAYS cfg ≠ 0 →
  initialize_assignment cfg today users = Raise e → e = OverflowError.
Proof.
  intros Hne. unfold initialize_assignment.
  rewrite get_first_assignment_date_eq by done.
  destruct (date_add today _) as [start_date|e'] eqn:Hstart; simpl.
  - destruct (result_mapM _ _) as [dates|e'] eqn:Hmap; [done|]. simpl.
    intros [= <-]. apply result_mapM_Raise in Hmap as (i & _ & Hi).
    by eapply date_add_Raise.
  - intros [= <-]. by eapply date_add_Raise.
Qed.

Lemma new_date_for_Ok_inv cfg today st new_date :
  new_date_for cfg today st = Ok new_date →
  date_valid new_date ∧
  (∀ last_date, last (DATES st) = Some last_date →
     new_date = last_date + ASSIGNMENT_INTERVAL_DAYS cfg) ∧
  (DATES st = [] → get_first_assignment_date cfg today = Ok new_date).
Proof.
  unfold new_date_for. destruct (last (DATES st)) as [last_date|] eqn:Hlast.
  - intros (-> & Hv & _)%date_add_Ok_inv. split_and!; [done| |].
    + by intros ? [= <-].
    + intros Hnil. by rewrite Hnil in Hlast.
  - intros Hfirst. split_and!; [|done|done].
    unfold get_first_assignment_date in Hfirst.
    destruct (py_mod _ _); [|done]. simpl in Hfirst.
    by apply date_add_Ok_inv in Hfirst as (_ & Hv & _).
Qed.

(** ** Lengths stay equal *)

Lemma run_op_length cfg today o st :
  completes cfg today o st →
  length (USERS st) = length (DATES st) →
  length (USERS (run_op cfg today o st).2)
    = length (DATES (run_op cfg today o st).2).
Proof.
  intros Hcompletes Hlen.
  destruct o as [users|username|username|all dd|u1 u2]; simpl in *.
  - rewrite regenerate_eq.
    destruct (initialize_assignment cfg today users) as [[users' dates']|e] eqn:Hinit;
      [|done].
    apply initialize_assignment_Ok_inv in Hinit as (-> & start & _ & -> & _).
    simpl. by rewrite length_fmap, length_seq.
  - rewrite add_user_eq in *.
    destruct (new_date_for cfg today st); [|done].
    simpl. rewrite !length_app. simpl. lia.
  - by destruct (delete_user_raises today username st) as [-> | ->].
  - rewrite delay_cases.
    destruct (list_find _ (DATES st)) as [[i x]|] eqn:Hfind; [|done].
    pose proof Hfind as (Hi%lookup_lt_Some & _)%list_find_Some.
    destruct all.
    + destruct (result_mapM _ _) as [delayed|e] eqn:Hmap; [|done].
      apply shift_dates_Ok_inv in Hmap as [-> _]. simpl.
      rewrite length_app, length_fmap, length_take, length_drop. lia.
    + unfold saved.
      repeat case_match; simpl; rewrite ?length_insert; done.
  - rewrite swap_cases. unfold saved.
    repeat case_match; simpl; rewrite ?length_insert; done.
Qed.

Lemma reachable_length cfg st :
  reachable_completing cfg st → length (USERS st) = length (DATES st).
Proof.
  intros Hreach. induction Hreach as [|st today o _ IH Hc]; [done|].
  by apply run_op_length.
Qed.

(** ** Non-decreasing dates *)

Lemma non_decreasing_snoc (dates : list date) y :
  non_decreasing dates →
  (∀ x, last dates = Some x → x ≤ y) →
  non_decreasing (dates ++ [y]).
Proof.
  intros Hnd Hlast i j a b Hi Hj Hij.
  apply lookup_snoc_Some in Hi as [[Hil Hi]|[-> ->]];
    apply lookup_snoc_Some in Hj as [[Hjl Hj]|[-> ->]]; [by eapply Hnd| |lia..].
  destruct (lookup_lt_is_Some_2 dates (pred (length dates))) as [z Hz]; [lia|].
  trans z.
  - eapply Hnd; [done..|lia].
  - apply Hlast. by rewrite last_lookup.
Qed.

Lemma non_decreasing_insert (dates : list date) i x z :
  non_decreasing dates →
  dates !! i = Some x → x ≤ z →
  (∀ y, dates !! S i = Some y → z ≤ y) →
  non_decreasing (<[i := z]> dates).
Proof.
  intros Hnd Hi Hxz Hnext a b u v Ha Hb Hab.
  pose proof (lookup_lt_Some _ _ _ Hi) as Hlt.
  destruct (decide (a = i)) as [->|Hai]; destruct (decide (b = i)) as [->|Hbi].
  - rewrite list_lookup_insert_eq in Ha, Hb by done. simplify_eq. lia.
  - rewrite list_lookup_insert_eq in Ha by done.
    rewrite list_lookup_insert_ne in Hb by done. simplify_eq.
    destruct (lookup_lt_is_Some_2 dates (S i)) as [y Hy].
    { apply lookup_lt_Some in Hb. lia. }
    trans y; [by apply Hnext|]. eapply Hnd; [done..|lia].
  - rewrite list_lookup_insert_ne in Ha by done.
    rewrite list_lookup_insert_eq in Hb by done. simplify_eq.
    trans x; [|done]. by eapply Hnd.
  - rewrite list_lookup_insert_ne in Ha, Hb by done. by eapply Hnd.
Qed.

Lemma shifted_lookup (dates : list date) n dd k :
  (n ≤ length dates)%nat →
  (take n dates ++ ((λ d, d + dd) <$> drop n dates)) !! k =
  if decide (k < n)%nat then dates !! k else (λ d, d + dd) <$> dates !! k.
Proof.
  intros Hn. destruct (decide (k < n)%nat) as [Hk|Hk].
  - rewrite lookup_app_l by (rewrite length_take; lia).
    by apply lookup_take_lt.
  - rewrite lookup_app_r by (rewrite length_take; lia).
    rewrite list_lookup_fmap, lookup_drop, length_take.
    do 2 f_equal. lia.
Qed.

Lemma non_decreasing_shift (dates : list date) n dd :
  (n ≤ length dates)%nat → 0 ≤ dd →
  non_decreasing dates →
  non_decreasing (take n dates ++ ((λ d, d + dd) <$> drop n dates)).
Proof.
  intros Hn Hdd Hnd a b u v Ha Hb Hab.
  rewrite shifted_lookup in Ha, Hb by done.
  repeat case_decide; try lia.
  - by eapply Hnd.
  - apply fmap_Some in Hb as (v' & Hb & ->).
    pose proof (Hnd _ _ _ _ Ha Hb Hab). lia.
  - apply fmap_Some in Ha as (u' & Ha & ->).
    apply fmap_Some in Hb as (v' & Hb & ->).
    pose proof (Hnd _ _ _ _ Ha Hb Hab). lia.
Qed.

Lemma non_decreasing_initial (start step : Z) n :
  0 ≤ step →
  non_decreasing ((λ i : nat, start + Z.of_nat i * step) <$> seq 0 n).
Proof.
  intros Hstep a b u v Ha Hb Hab.
  rewrite list_lookup_fmap in Ha, Hb.
  apply fmap_Some in Ha as (i & Ha & ->).
  apply fmap_Some in Hb as (j & Hb & ->).
  apply lookup_seq in Ha as [-> _]. apply lookup_seq in Hb as [-> _].
  simpl. nia.
Qed.

(** ** Distinct user names *)

Lemma swapped_NoDup (l : list string) a b i j :
  l !! i = Some a → l !! j = Some b →
  NoDup l → NoDup (<[i := b]> (<[j := a]> l)).
Proof.
  intros Hi Hj Hnd. apply NoDup_alt. intros k1 k2 x.
  rewrite !(swapped_lookup l a b i j _ Hi Hj).
  rewrite NoDup_alt in Hnd.
  repeat case_decide; intros Hk1 Hk2; simplify_eq; try done.
  all: try (exfalso; eauto using eq_sym; fail).
  all: eauto.
Qed.

(** ** The invariant along guarded operations *)

Lemma run_op_invariant cfg today o st :
  0 < ASSIGNMENT_INTERVAL_DAYS cfg →
  completes cfg today o st →
  guarded st o →
  schedule_invariant st →
  schedule_invariant (run_op cfg today o st).2.
Proof.
  intros Hpos Hcompletes Hg (Hlen & Hnd & Hdistinct).
  split; [by apply run_op_length|].
  destruct o as [users|username|username|all dd|u1 u2]; simpl in *.
  - rewrite regenerate_eq.
    destruct (initialize_assignment cfg today users) as [[users' dates']|e] eqn:Hinit;
      [|done].
    apply initialize_assignment_Ok_inv in Hinit as (-> & start & _ & -> & _).
    simpl. split; [|done]. apply non_decreasing_initial. lia.
  - rewrite add_user_eq in *.
    destruct (new_date_for cfg today st) as [new_date|] eqn:Hnew; [|done].
    apply new_date_for_Ok_inv in Hnew as (_ & Hlast & _). simpl. split.
    + apply non_decreasing_snoc; [done|]. intros x Hx.
      rewrite (Hlast x Hx). lia.
    + apply NoDup_app. split_and!; [done| |apply NoDup_singleton].
      intros x Hx ->%list_elem_of_singleton. done.
  - by destruct (delete_user_raises today username st) as [-> | ->].
  - rewrite delay_cases.
    destruct (list_find _ (DATES st)) as [[i x]|] eqn:Hfind; [|done].
    pose proof Hfind as (Hi & _ & _)%list_find_Some.
    pose proof (lookup_lt_Some _ _ _ Hi) as Hlt.
    destruct all.
    { destruct (result_mapM _ _) as [delayed|e] eqn:Hmap; [|done].
      apply shift_dates_Ok_inv in Hmap as [-> _]. simpl.
      split; [|done]. apply non_decreasing_shift; [lia|done..]. }
    destruct (decide (S i = length (DATES st))) as [Hlast|Hnotlast].
    { destruct (date_add x dd) as [delayed|e] eqn:Hadd; [|done].
      apply date_add_Ok_inv in Hadd as (-> & _). simpl.
      split; [|done]. eapply non_decreasing_insert; [done..|lia|].
      intros y Hy%lookup_lt_Some. lia. }
    destruct (DATES st !! S i) as [y|] eqn:Hy; [|done].
    destruct (decide (y - x ≤ dd)); [done|].
    destruct (date_add x dd) as [delayed|e] eqn:Hadd; [|done].
    apply date_add_Ok_inv in Hadd as (-> & _). simpl.
    split; [|done]. eapply non_decreasing_insert; [done..|lia|].
    intros y' Hy'. simplify_eq. lia.
  - rewrite swap_cases.
    destruct (list_find _ (USERS st)) as [[i a]|] eqn:Ha; [|done].
    destruct (list_find (λ y, y = u2) (USERS st)) as [[j b]|] eqn:Hb; [|done].
    pose proof Ha as (Hi & -> & _)%list_find_Some.
    pose proof Hb as (Hj & -> & _)%list_find_Some.
    simpl. split; [done|]. by apply swapped_NoDup.
Qed.

Lemma reachable_guarded_completing cfg st :
  reachable_guarded cfg st → reachable_completing cfg st.
Proof. induction 1; by constructor. Qed.

Lemma reachable_completing_reachable cfg st :
  reachable_completing cfg st → reachable cfg st.
Proof. induction 1; by constructor. Qed.

Lemma run_op_dates_valid cfg today o st :
  Forall date_valid (DATES st) →
  Forall date_valid (DATES (run_op cfg today o st).2).
Proof.
  intros Hvalid. destruct o as [users|username|username|all dd|u1 u2]; simpl.
  - rewrite regenerate_eq.
    destruct (initialize_assignment cfg today users) as [[users' dates']|e] eqn:Hinit;
      [|done].
    by apply initialize_assignment_Ok_inv in Hinit as (_ & start & _ & _ & Hv).
  - rewrite add_user_eq.
    destruct (new_date_for cfg today st) as [new_date|] eqn:Hnew; [|done].
    apply new_date_for_Ok_inv in Hnew as (Hv & _). simpl.
    apply Forall_app. split; [done|]. by constructor.
  - by destruct (delete_user_raises today username st) as [-> | ->].
  - rewrite delay_cases.
    destruct (list_find _ (DATES st)) as [[i x]|] eqn:Hfind; [|done].
    assert (∀ r : result date,
      Forall date_valid
        (DATES (match r with
                | Ok delayed => saved (USERS st) (<[i := delayed]> (DATES st))
                | Raise e => (Raise e, st)
                end).2) ∨ ∃ delayed, r = Ok delayed ∧ ¬ date_valid delayed)
      as Hshift.
    { intros [delayed|e]; simpl; [|by left].
      destruct (decide (date_valid delayed)); [left|right; by exists delayed].
      by apply Forall_insert. }
    assert (Forall date_valid
        (DATES (match date_add x dd with
                | Ok delayed => saved (USERS st) (<[i := delayed]> (DATES st))
                | Raise e => (Raise e, st)
                end).2)) as Hone.
    { destruct (Hshift (date_add x dd)) as [?|(delayed & Hadd & Hbad)]; [done|].
      by apply date_add_Ok_inv in Hadd as (_ & ? & _). }
    destruct all.
    + destruct (result_mapM _ _) as [delayed|e] eqn:Hmap; [|done].
      apply shift_dates_Ok_inv in Hmap as [Heq Hv]. simpl.
      apply Forall_app. split; [by apply Forall_take|done].
    + destruct (decide (S i = _)); [done|].
      destruct (DATES st !! S i) as [y|]; [|done].
      by destruct (decide (y - x ≤ dd)).
  - rewrite swap_cases. unfold saved. by repeat case_match.
Qed.



(** ** The calendar: ordinal to fields and back *)

Module CalendarFacts.
Import Calendar.

Lemma days_before_year_split q c k j :
  0 ≤ c ≤ 3 → 0 ≤ k ≤ 24 → 0 ≤ j ≤ 3 →
  days_before_year (400 * q + 100 * c + 4 * k + j + 1)
  = DI400Y * q + DI100Y * c + DI4Y * k + 365 * j.
Proof.
  intros Hc Hk Hj. unfold days_before_year, DI400Y, DI100Y, DI4Y.
  Z.div_mod_to_equations. lia.
Qed.

Lemma is_leap_split q c k j :
  0 ≤ c ≤ 3 → 0 ≤ k ≤ 24 → 0 ≤ j ≤ 3 →
  is_leap (400 * q + 100 * c + 4 * k + j + 1)
  = bool_decide (j = 3) && (negb (bool_decide (k = 24)) || bool_decide (c = 3)).
Proof.
  intros Hc Hk Hj. unfold is_leap.
  repeat case_bool_decide; simpl; try reflexivity;
    exfalso; Z.div_mod_to_equations; lia.
Qed.

Lemma month_day_checked (leapyear : bool) :
  forallb (month_day_ok leapyear) (seqZ 0 (if leapyear then 366 else 365)) = true.
Proof. destruct leapyear; vm_compute; reflexivity. Qed.

Lemma month_day_spec (leapyear : bool) n :
  0 ≤ n < (if leapyear then 366 else 365) → month_day_ok leapyear n = true.
Proof.
  intros Hn. pose proof (month_day_checked leapyear) as Hall.
  rewrite forallb_forall in Hall. apply Hall.
  apply list_elem_of_In, elem_of_seqZ. lia.
Qed.

Lemma ord2ymd_spec n :
  1 ≤ n →
  ∃ year month day,
    ord2ymd n = (year, month, day) ∧
    1 ≤ year ∧ (n ≤ MAXORDINAL → year ≤ MAXYEAR) ∧
    1 ≤ month ≤ 12 ∧ 1 ≤ day ≤ days_in_month year month ∧
    ymd2ord year month day = n.
Proof.
  intros Hn. unfold ord2ymd.
  set (n0 := n - 1).
  set (q := n0 `div` DI400Y). set (r := n0 `mod` DI400Y).
  set (c := r `div` DI100Y). set (r1 := r `mod` DI100Y).
  set (k := r1 `div` DI4Y). set (r2 := r1 `mod` DI4Y).
  set (j := r2 `div` 365). set (r3 := r2 `mod` 365).
  assert (n0 = DI400Y * q + r ∧ 0 ≤ r < DI400Y ∧
          r = DI100Y * c + r1 ∧ 0 ≤ r1 < DI100Y ∧
          r1 = DI4Y * k + r2 ∧ 0 ≤ r2 < DI4Y ∧
          r2 = 365 * j + r3 ∧ 0 ≤ r3 < 365 ∧ 0 ≤ q) as Hdec.
  { subst q r c r1 k r2 j r3. unfold DI400Y, DI100Y, DI4Y.
    Z.div_mod_to_equations. lia. }
  clearbody q r c r1 k r2 j r3. subst n0. unfold DI400Y, DI100Y, DI4Y in Hdec.
  destruct Hdec as (Hn0 & Hr & Hrc & Hr1 & Hr1k & Hr2 & Hr2j & Hr3 & Hq).
  destruct (bool_decide (j = 4) || bool_decide (c = 4)) eqn:Hend.
  - (* the last day of a leap year *)
    exists (q * 400 + 1 + (c * 100 + k * 4 + j) - 1), 12, 31.
    split; [done|].
    assert ((j = 4 ∧ 0 ≤ c ≤ 3 ∧ 0 ≤ k ≤ 23 ∧ r3 = 0) ∨
            (c = 4 ∧ k = 0 ∧ j = 0 ∧ r3 = 0 ∧ r1 = 0)) as Hcase.
    { apply orb_true_iff in Hend as [?%bool_decide_eq_true|?%bool_decide_eq_true];
        [left|right]; lia. }
    assert (is_leap (q * 400 + 1 + (c * 100 + k * 4 + j) - 1) = true) as Hleap.
    { unfold is_leap. rewrite andb_true_iff, orb_true_iff, negb_true_iff.
      rewrite !bool_decide_eq_true, bool_decide_eq_false.
      Z.div_mod_to_equations. lia. }
    unfold ymd2ord, days_before_month, days_in_month, days_before_year,
      MAXORDINAL, MAXYEAR.
    rewrite Hleap. simpl bool_decide. cbn [andb].
    change (table DAYS_IN_MONTH 12) with 31.
    change (table DAYS_BEFORE_MONTH 12) with 334.
    split_and!; try lia; Z.div_mod_to_equations; lia.
  - apply orb_false_iff in Hend as [Hj4%bool_decide_eq_false Hc4%bool_decide_eq_false].
    assert (0 ≤ c ≤ 3 ∧ 0 ≤ k ≤ 24 ∧ 0 ≤ j ≤ 3) as (Hc & Hk & Hj) by lia.
    set (leapyear := bool_decide (j = 3) &&
                     (negb (bool_decide (k = 24)) || bool_decide (c = 3))).
    assert (month_day_ok leapyear r3 = true) as Hmd
      by (apply month_day_spec; destruct leapyear; lia).
    destruct (month_day leapyear r3) as [month day] eqn:Hmonth_day.
    unfold month_day_ok in Hmd. rewrite Hmonth_day in Hmd.
    apply andb_true_iff in Hmd as
      [[Hm%bool_decide_eq_true Hd%bool_decide_eq_true]%andb_true_iff
       Hsum%bool_decide_eq_true].
    exists (q * 400 + 1 + (c * 100 + k * 4 + j)), month, day.
    split; [done|].
    replace (q * 400 + 1 + (c * 100 + k * 4 + j))
      with (400 * q + 100 * c + 4 * k + j + 1) by lia.
    unfold ymd2ord, days_before_month, days_in_month.
    rewrite days_before_year_split, is_leap_split by done.
    fold leapyear. unfold DI400Y, DI100Y, DI4Y.
    unfold MAXORDINAL, MAXYEAR. split_and!; lia.
Qed.
End CalendarFacts.

(** ** ISO strings *)

Module IsoFacts.
Import Calendar CalendarFacts.

Lemma digit_round_trip k :
  0 ≤ k ≤ 9 → digit_of_ascii (ascii_of_digit k) = Some k.
Proof.
  intros Hk.
  assert (k = 0 ∨ k = 1 ∨ k = 2 ∨ k = 3 ∨ k = 4 ∨
          k = 5 ∨ k = 6 ∨ k = 7 ∨ k = 8 ∨ k = 9) as Hcases by lia.
  repeat destruct Hcases as [->|Hcases]; try subst k; reflexivity.
Qed.

Lemma parse2_digits a :
  0 ≤ a < 100 →
  parse2 (ascii_of_digit ((a `div` 10) `mod` 10)) (ascii_of_digit (a `mod` 10))
  = Some a.
Proof.
  intros Ha. unfold parse2.
  rewrite !digit_round_trip by (Z.div_mod_to_equations; lia).
  f_equal. Z.div_mod_to_equations. lia.
Qed.

Lemma parse4_digits y :
  0 ≤ y < 10000 →
  parse4 (ascii_of_digit ((y `div` 1000) `mod` 10))
         (ascii_of_digit ((y `div` 100) `mod` 10))
         (ascii_of_digit ((y `div` 10) `mod` 10))
         (ascii_of_digit (y `mod` 10))
  = Some y.
Proof.
  intros Hy. unfold parse4, parse2.
  rewrite !digit_round_trip by (Z.div_mod_to_equations; lia).
  f_equal. Z.div_mod_to_equations. lia.
Qed.

Lemma days_in_month_bound year month :
  1 ≤ month ≤ 12 → days_in_month year month ≤ 31.
Proof.
  intros Hm. unfold days_in_month.
  assert (month = 1 ∨ month = 2 ∨ month = 3 ∨ month = 4 ∨ month = 5 ∨
          month = 6 ∨ month = 7 ∨ month = 8 ∨ month = 9 ∨ month = 10 ∨
          month = 11 ∨ month = 12) as Hcases by lia.
  repeat destruct Hcases as [->|Hcases]; try subst month;
    destruct (is_leap year); vm_compute; congruence.
Qed.
End IsoFacts.

(** Parsing what [isoformat] wrote gives the date back. *)
Lemma fromisoformat_isoformat d :
  date_valid d → fromisoformat (isoformat d) = Ok d.
Proof.
  intros [Hlo Hhi]. unfold isoformat.
  destruct (CalendarFacts.ord2ymd_spec d Hlo)
    as (year & month & day & -> & Hy & Hmax & Hm & Hd & Hord).
  specialize (Hmax Hhi). unfold Calendar.MAXYEAR in Hmax.
  pose proof (IsoFacts.days_in_month_bound year month Hm) as Hdim.
  unfold Calendar.fmt4, Calendar.fmt2, fromisoformat.
  rewrite IsoFacts.parse4_digits, !IsoFacts.parse2_digits by lia.
  unfold Calendar.check_date_fields, Calendar.MINYEAR, Calendar.MAXYEAR.
  rewrite !bool_decide_eq_true_2 by lia. simpl. by rewrite Hord.
Qed.

Lemma deserialize_dates_isoformat dates :
  Forall date_valid dates →
  deserialize_dates (isoformat <$> dates) = Ok dates.
Proof.
  induction 1 as [|d dates Hd _ IH]; [done|].
  rewrite fmap_cons. cbn [deserialize_dates].
  rewrite fromisoformat_isoformat by done. cbn [rbind]. by rewrite IH.
Qed.

(** ** Storing and loading a schedule *)

Lemma deserialize_snapshot users dates :
  NoDup users → length users = length dates → Forall date_valid dates →
  deserialize_data (snapshot users dates) = Ok (users, dates).
Proof.
  intros Hnd Hlen Hvalid. unfold deserialize_data, snapshot. simpl.
  rewrite dict_of_pairs_NoDup.
  - rewrite snd_zip, fst_zip by (rewrite length_fmap; lia).
    by rewrite deserialize_dates_isoformat.
  - rewrite fst_zip by (rewrite length_fmap; lia). done.
Qed.

(** With its default [wide=True], [serialize_data] builds the list of rows
    sent to clients, which is never the stored dictionary. *)
Lemma serialize_data_wide_not_snapshot users dates :
  serialize_data users (PDate <$> dates) true ≠ Ok (snapshot users dates).
Proof.
  unfold serialize_data, data_to_dict, snapshot.
  rewrite serialize_dates_PDate. simpl. intros Heq. simplify_eq.
Qed.


(** ** The statements at sample schedules *)

Lemma abc_first_after :
  first_after wed_2026_11_04 (DATES abc_state) 1 mon_2026_11_09.
Proof.
  split_and!; [reflexivity|reflexivity|].
  intros [|j] y Hy Hj; [|lia]. simpl in Hy. injection Hy as <-. discriminate.
Qed.

Lemma a_state_invariant : schedule_invariant a_state.
Proof.
  split_and!; [reflexivity| |].
  - intros [|i] [|j] x y Hi Hj _; simpl in *; simplify_eq. lia.
  - apply NoDup_singleton.
Qed.

Lemma delay_no_upcoming_assignment_witness :
  delay (mon_2026_11_16 + 1) true 5 abc_state = (Raise StopIteration, abc_state) ∧
  StopIteration ≠ HTTPException 400.
Proof.
  apply (delay_no_upcoming_assignment (mon_2026_11_16 + 1) true 5 abc_state).
  repeat constructor; discriminate.
Defined.

Lemma delay_next_window_witness :
  delay wed_2026_11_04 false 7 abc_state = (Raise (HTTPException 400), abc_state) ∧
  (∃ st', delay wed_2026_11_04 false 3 abc_state = (Ok (), st') ∧
          DATES st' = [mon_2026_11_02; mon_2026_11_09 + 3; mon_2026_11_16]) ∧
  delay wed_2026_11_04 false (-739929) abc_state
    = (Raise OverflowError, abc_state).
Proof.
  assert (date_valid mon_2026_11_09) as Hx by (split; discriminate).
  assert (date_valid mon_2026_11_16) as Hy by (split; discriminate).
  split_and!.
  - apply (delay_next_window wed_2026_11_04 7 abc_state 1
             mon_2026_11_09 mon_2026_11_16 abc_first_after eq_refl Hx Hy).
    discriminate.
  - destruct (delay_next_window wed_2026_11_04 3 abc_state 1
             mon_2026_11_09 mon_2026_11_16 abc_first_after eq_refl Hx Hy)
      as (_ & Hok & _).
    destruct Hok as (st' & Hrun & _ & Hdates); [reflexivity|discriminate|].
    exists st'. split; [exact Hrun|exact Hdates].
  - apply (delay_next_window wed_2026_11_04 (-739929) abc_state 1
             mon_2026_11_09 mon_2026_11_16 abc_first_after eq_refl Hx Hy);
      reflexivity.
Defined.

Lemma delay_frame_witness :
  USERS (delay wed_2026_11_04 true 7 abc_state).2 = USERS abc_state ∧
  length (DATES (delay wed_2026_11_04 true 7 abc_state).2) = 3%nat.
Proof.
  destruct (delay_frame wed_2026_11_04 true 7 abc_state) as [Husers Hok].
  split; [exact Husers|]. destruct Hok as [Hlen _]; [reflexivity|exact Hlen].
Defined.

Lemma swap_exchanges_witness :
  ∃ st', swap "A" "C" abc_state = (Ok (), st') ∧
         DATES st' = DATES abc_state ∧
         USERS st' !! 0%nat = Some "C"%string ∧
         USERS st' !! 2%nat = Some "A"%string.
Proof.
  destruct (swap_exchanges abc_state "A" "C")
    as (i & j & st' & Hi & Hj & Hrun & Hdates & _ & Hci & Hcj & _).
  - apply list_elem_of_here.
  - do 2 apply list_elem_of_further. apply list_elem_of_here.
  - injection Hi as <-. injection Hj as <-.
    exists st'. split_and!; [exact Hrun|exact Hdates|exact Hci|exact Hcj].
Defined.

Lemma add_user_guarded_by_route_witness :
  get_user_route default_config wed_2026_11_04 PUT "A" a_state
    = (Ok (RespText "User already in list" 204), a_state) ∧
  USERS (add_user default_config wed_2026_11_04 "A" a_state).2
    = ["A"; "A"]%string.
Proof.
  destruct (add_user_guarded_by_route default_config wed_2026_11_04 "A" a_state)
    as (Hroute & Husers & _).
  - apply list_elem_of_here.
  - split; [exact Hroute|exact Husers].
Defined.



(** * Further properties of the engine *)

(** ** Looking a user up *)

Lemma dict_getitem_setitem {V} k (v : V) d k' :
  dict_getitem (dict_setitem k v d) k'
  = if decide (k = k') then Ok v else dict_getitem d k'.
Proof.
  induction d as [|[k0 v0] d IH]; simpl.
  - by destruct (decide (k = k')).
  - destruct (decide (k0 = k)) as [->|Hne]; simpl.
    + by destruct (decide (k = k')).
    + rewrite IH. destruct (decide (k0 = k')) as [->|]; [|done].
      by rewrite decide_False.
Qed.

Lemma dict_of_pairs_snoc {V} (pairs : list (string * V)) k v :
  dict_of_pairs (pairs ++ [(k, v)]) = dict_setitem k v (dict_of_pairs pairs).
Proof. unfold dict_of_pairs. by rewrite foldl_app. Qed.

(** [dict(pairs)[k]] is the value of the last pair with key [k]. *)
Lemma dict_of_pairs_last {V} (pairs : list (string * V)) i k v :
  pairs !! i = Some (k, v) →
  (∀ j v', (i < j)%nat → pairs !! j ≠ Some (k, v')) →
  dict_getitem (dict_of_pairs pairs) k = Ok v.
Proof.
  revert i. induction pairs as [|[k0 v0] pairs IH] using rev_ind;
    intros i Hi Hlast; [done|].
  rewrite dict_of_pairs_snoc, dict_getitem_setitem.
  apply lookup_snoc_Some in Hi as [[Hlt Hi]|[-> Heq]].
  - destruct (decide (k0 = k)) as [->|Hne].
    + exfalso. apply (Hlast (length pairs) v0 Hlt).
      by rewrite lookup_app_r, Nat.sub_diag by lia.
    + apply (IH i Hi). intros j v' Hj Hpj. apply (Hlast j v' Hj).
      by apply lookup_app_l_Some.
  - simplify_eq. by rewrite decide_True.
Qed.

Lemma dict_getitem_absent {V} (d : pydict V) k :
  k ∉ d.*1 → dict_getitem d k = Raise KeyError.
Proof.
  induction d as [|[k0 v0] d IH]; simpl; [done|].
  intros Hk. destruct (decide (k0 = k)) as [->|]; [set_solver|].
  apply IH. set_solver.
Qed.

Lemma get_user_found username st i d :
  USERS st !! i = Some username →
  DATES st !! i = Some d →
  (∀ j, (i < j < length (DATES st))%nat → USERS st !! j ≠ Some username) →
  get_user username st = (Ok ([username], [isoformat d]), st).
Proof.
  intros Hu Hd Hlast. rewrite get_user_eq.
  rewrite (dict_of_pairs_last _ i username (isoformat d)); [done| |].
  - rewrite lookup_zip_with, Hu. simpl. rewrite list_lookup_fmap, Hd. done.
  - intros j v' Hij Hj. rewrite lookup_zip_with in Hj.
    destruct (USERS st !! j) as [u|] eqn:Huj; [|done]. simpl in Hj.
    rewrite list_lookup_fmap in Hj.
    destruct (DATES st !! j) as [d'|] eqn:Hdj; [|done]. simpl in Hj.
    simplify_eq. apply (Hlast j); [|done].
    apply lookup_lt_Some in Hdj. lia.
Qed.

(** X1. [get_user(username)] returns the ISO string of the date at the
    last position at which [username] stands in [USERS] (its only position
    when the names are distinct), and leaves the state as it was. *)
Theorem get_user_last_position username st i d :
  USERS st !! i = Some username →
  DATES st !! i = Some d →
  (∀ j, (i < j < length (DATES st))%nat → USERS st !! j ≠ Some username) →
  get_user username st = (Ok ([username], [isoformat d]), st).
Proof. apply get_user_found. Qed.

Lemma get_user_last_position_witness :
  get_user "B" abc_state = (Ok (["B"%string], ["2026-11-09"%string]), abc_state).
Proof.
  apply (get_user_last_position "B" abc_state 1 mon_2026_11_09);
    [reflexivity|reflexivity|].
  intros [|[|[|j]]] Hj; simpl in *; try lia. discriminate.
Defined.

(** X2. For a name that is not in [USERS], [get_user] raises [KeyError]
    and leaves the state as it was. *)
Theorem get_user_absent username st :
  username ∉ USERS st →
  get_user username st = (Raise KeyError, st).
Proof.
  intros Hnot. rewrite get_user_eq, dict_getitem_absent; [done|].
  rewrite dict_of_pairs_keys. intros Hin. apply Hnot.
  apply list_elem_of_fmap in Hin as ([u s] & -> & Hin).
  apply elem_of_zip_l in Hin. done.
Qed.

Lemma get_user_absent_witness :
  get_user "Z" abc_state = (Raise KeyError, abc_state).
Proof.
  apply get_user_absent. simpl. intros Hin.
  repeat (apply elem_of_cons in Hin as [Hin|Hin]; [discriminate Hin|]).
  by apply not_elem_of_nil in Hin.
Defined.

(** X3. [delete_user] never deletes: whatever the user name, the day and
    the state, it raises [KeyError] or [TypeError] and leaves [USERS],
    [DATES] and the stored file untouched. *)
Theorem delete_user_never_deletes today username st :
  (delete_user today username st).2 = st ∧
  ((delete_user today username st).1 = Raise KeyError ∨
   (delete_user today username st).1 = Raise TypeError).
Proof.
  destruct (delete_user_raises today username st) as [-> | ->]; simpl; auto.
Qed.

(** ** Adding a user *)

(** X4. [add_user] appends the name to [USERS] and one date to [DATES]
    and stores the new schedule: the date is the last date plus the interval
    when that is still a date of the calendar, and the first assignment date
    when there was no date.  All earlier entries stay. *)
Theorem add_user_appends cfg today username st :
  (∀ last_date,
     last (DATES st) = Some last_date → date_valid last_date →
     date_valid (last_date + ASSIGNMENT_INTERVAL_DAYS cfg) →
     add_user cfg today username st
     = saved (USERS st ++ [username])
             (DATES st ++ [last_date + ASSIGNMENT_INTERVAL_DAYS cfg])) ∧
  (∀ first_date,
     DATES st = [] → get_first_assignment_date cfg today = Ok first_date →
     add_user cfg today username st
     = saved (USERS st ++ [username]) [first_date]).
Proof.
  split.
  - intros last_date Hlast Hvalid Hnew. rewrite add_user_eq.
    unfold new_date_for. rewrite Hlast. by rewrite date_add_valid.
  - intros first_date Hnil Hfirst. rewrite add_user_eq.
    unfold new_date_for. rewrite Hnil. simpl. by rewrite Hfirst.
Qed.

Lemma add_user_appends_witness :
  add_user default_config wed_2026_11_04 "D" abc_state
  = saved ["A"; "B"; "C"; "D"]%string
          [mon_2026_11_02; mon_2026_11_09; mon_2026_11_16; mon_2026_11_16 + 7].
Proof.
  destruct (add_user_appends default_config wed_2026_11_04 "D" abc_state)
    as [Hlast _].
  apply (Hlast mon_2026_11_16); [reflexivity|split; discriminate..].
Defined.

(** X29. When the last date plus the interval is past 9999-12-31,
    [add_user] raises [OverflowError] after the name has been appended:
    [USERS] has grown by the name, [DATES] and the stored file are as
    before, so a schedule with as many users as dates is left with one user
    more than dates. *)
Theorem add_user_overflow cfg today username st last_date :
  last (DATES st) = Some last_date →
  Calendar.MAXORDINAL < last_date + ASSIGNMENT_INTERVAL_DAYS cfg →
  add_user cfg today username st
  = (Raise OverflowError,
     State (USERS st ++ [username]) (DATES st) (DATAFILE st)) ∧
  (length (USERS st) = length (DATES st) →
   length (USERS (add_user cfg today username st).2)
   = S (length (DATES (add_user cfg today username st).2))).
Proof.
  intros Hlast Hover.
  assert (add_user cfg today username st
          = (Raise OverflowError,
             State (USERS st ++ [username]) (DATES st) (DATAFILE st))) as ->.
  { rewrite add_user_eq. unfold new_date_for. rewrite Hlast.
    rewrite date_add_out_of_range; [done|]. unfold date_valid. lia. }
  split; [done|]. simpl. intros <-. rewrite length_app. simpl. lia.
Qed.

Lemma add_user_overflow_witness :
  add_user default_config wed_2026_11_04 "B"
    (State ["A"%string] [Calendar.MAXORDINAL] None)
  = (Raise OverflowError,
     State ["A"; "B"]%string [Calendar.MAXORDINAL] None).
Proof.
  apply (add_user_overflow default_config wed_2026_11_04 "B"
           (State ["A"%string] [Calendar.MAXORDINAL] None)
           Calendar.MAXORDINAL); reflexivity.
Defined.

(** X5. When [add_user] returns on a schedule with as many users as
    dates, the user just added is found by [get_user] with the date appended
    for them, even when the name was already in the list. *)
Theorem add_user_then_get_user cfg today username st st' :
  length (USERS st) = length (DATES st) →
  add_user cfg today username st = (Ok (), st') →
  ∃ new_date,
    last (DATES st') = Some new_date ∧
    get_user username st' = (Ok ([username], [isoformat new_date]), st').
Proof.
  intros Hlen. rewrite add_user_eq.
  destruct (new_date_for cfg today st) as [new_date|]; [|done].
  intros [= <-]. exists new_date. simpl. split; [by rewrite last_snoc|].
  apply (get_user_found _ _ (length (USERS st))); simpl.
  - by rewrite lookup_app_r, Nat.sub_diag by lia.
  - by rewrite Hlen, lookup_app_r, Nat.sub_diag by lia.
  - intros j. rewrite length_app. simpl. lia.
Qed.

Lemma add_user_then_get_user_witness :
  get_user "A" (add_user default_config wed_2026_11_04 "A" a_state).2
  = (Ok (["A"%string], ["2026-11-16"%string]),
     (add_user default_config wed_2026_11_04 "A" a_state).2).
Proof.
  destruct (add_user_then_get_user default_config wed_2026_11_04 "A" a_state
              (add_user default_config wed_2026_11_04 "A" a_state).2)
    as (new_date & Hlast & Hget); [reflexivity|reflexivity|].
  injection Hlast as <-. exact Hget.
Defined.

(** ** Starting a new assignment *)

Lemma result_mapM_not_Ok {A B} (f : A → result B) (l : list A) x :
  x ∈ l → (∀ r, f x ≠ Ok r) → ∀ l', result_mapM f l ≠ Ok l'.
Proof.
  intros Hx Hbad. induction Hx as [x l|x y l _ IH]; intros l'; simpl.
  - destruct (f x) as [r|] eqn:Hfx; [by destruct (Hbad r)|done].
  - specialize (IH Hbad). destruct (f y); [|done]. simpl.
    destruct (result_mapM f l) as [ys|]; [|done]. by destruct (IH ys).
Qed.

(** X6. With a positive interval and a first assignment date [start],
    [regenerate(users)] replaces the schedule when the date of the last user,
    [start + (len(users) - 1) * interval], is still a date of the calendar:
    [USERS] is [users], [dates[i] = start + i * interval], [start] is not
    before today, and the result is what gets stored.  When that date is
    past 9999-12-31, [regenerate] raises [OverflowError] and leaves the
    state as it was. *)
Theorem regenerate_schedule cfg today users st start_date :
  0 < ASSIGNMENT_INTERVAL_DAYS cfg →
  get_first_assignment_date cfg today = Ok start_date →
  today ≤ start_date ∧
  (start_date + (Z.of_nat (length users) - 1) * ASSIGNMENT_INTERVAL_DAYS cfg
     ≤ Calendar.MAXORDINAL →
   ∃ st',
     regenerate cfg today users st = (Ok (), st') ∧
     USERS st' = users ∧
     length (DATES st') = length users ∧
     (∀ i : nat, (i < length users)%nat →
        DATES st' !! i
        = Some (start_date + Z.of_nat i * ASSIGNMENT_INTERVAL_DAYS cfg)) ∧
     DATAFILE st' = Some (snapshot users (DATES st'))) ∧
  (users ≠ [] →
   Calendar.MAXORDINAL
     < start_date + (Z.of_nat (length users) - 1) * ASSIGNMENT_INTERVAL_DAYS cfg →
   regenerate cfg today users st = (Raise OverflowError, st)).
Proof.
  intros Hpos Hstart.
  pose proof (first_diff_days_bounds cfg today Hpos) as [Hb _].
  pose proof Hstart as Hstart'.
  rewrite get_first_assignment_date_eq in Hstart' by lia.
  apply date_add_Ok_inv in Hstart' as (Heq & Hvalid & _).
  split; [lia|]. rewrite regenerate_eq. unfold initialize_assignment.
  rewrite Hstart. simpl. split.
  - intros Hmax.
    rewrite (result_mapM_Ok _
      (λ i : nat, start_date + Z.of_nat i * ASSIGNMENT_INTERVAL_DAYS cfg)).
    + simpl. eexists. split; [reflexivity|]. simpl. split_and!; try done.
      * by rewrite length_fmap, length_seq.
      * intros i Hi. by rewrite list_lookup_fmap, lookup_seq_lt by done.
    + apply Forall_forall. intros i [_ Hi]%elem_of_seq.
      apply date_add_valid; [done|]. unfold date_valid in *. nia.
  - intros Hne Hmax.
    destruct (result_mapM _ _) as [dates|e] eqn:Hmap; simpl.
    + exfalso. revert Hmap.
      apply (result_mapM_not_Ok _ _ (length users - 1)%nat).
      * apply elem_of_seq. destruct users; [done|]. simpl. lia.
      * intros r (-> & Hr & _)%date_add_Ok_inv.
        assert (Z.of_nat (length users - 1) = Z.of_nat (length users) - 1)
          as Hlen by (destruct users; [done|simpl; lia]).
        rewrite Hlen in Hr. unfold date_valid in Hr. lia.
    + apply result_mapM_Raise in Hmap as (i & _ & Hi).
      by rewrite (date_add_Raise _ _ _ Hi).
Qed.

Lemma regenerate_schedule_witness :
  ∃ st', regenerate default_config wed_2026_11_04 ["A"; "B"; "C"]%string
           empty_state = (Ok (), st') ∧
         DATES st' !! 2%nat = Some (mon_2026_11_09 + 14).
Proof.
  destruct (regenerate_schedule default_config wed_2026_11_04
              ["A"; "B"; "C"]%string empty_state mon_2026_11_09 eq_refl eq_refl)
    as (_ & Hok & _).
  destruct Hok as (st' & Hrun & _ & _ & Hdates & _); [discriminate|].
  exists st'. split; [exact Hrun|]. apply (Hdates 2%nat). simpl. lia.
Defined.

(** X7. When [regenerate] returns, regenerating once more on the same day
    gives the same result, and so does regenerating from any other state:
    the result depends on the list of users only.  When it raises, the
    state is the one it started from. *)
Theorem regenerate_idempotent cfg today users st1 st2 :
  ((regenerate cfg today users st1).1 = Ok () →
   regenerate cfg today users (regenerate cfg today users st1).2
     = regenerate cfg today users st1 ∧
   regenerate cfg today users st2 = regenerate cfg today users st1) ∧
  (∀ e, (regenerate cfg today users st1).1 = Raise e →
        (regenerate cfg today users st1).2 = st1).
Proof.
  rewrite !regenerate_eq.
  destruct (initialize_assignment cfg today users) as [[users' dates']|e];
    simpl; [|done].
  split; [done|]. intros e He. discriminate He.
Qed.

Lemma regenerate_idempotent_witness :
  regenerate default_config wed_2026_11_04 ["A"; "B"]%string empty_state
  = regenerate default_config wed_2026_11_04 ["A"; "B"]%string abc_state.
Proof.
  destruct (regenerate_idempotent default_config wed_2026_11_04
              ["A"; "B"]%string abc_state empty_state) as [Hok _].
  apply Hok. reflexivity.
Defined.

(** ** Looking a period up *)

Lemma first_index_from_none period_begin (dates : list date) :
  Forall (λ d, d < period_begin) dates ↔
  list_find (λ d, period_begin ≤ d) dates = None.
Proof.
  rewrite list_find_None, !Forall_forall.
  split; intros H d Hd; specialize (H d Hd); lia.
Qed.

(** X8. Without [period_end], [lookup] returns the one entry at the first
    position whose date is on or after [period_begin]; with or without
    [period_end], it returns two empty lists when every date lies before
    [period_begin].  The state is left as it was. *)
Theorem lookup_next period_begin st :
  (∀ period_end, Forall (λ d, d < period_begin) (DATES st) →
     lookup period_begin period_end st = (Ok ([], []), st)) ∧
  (∀ i u d,
     USERS st !! i = Some u → DATES st !! i = Some d → period_begin ≤ d →
     (∀ j y, DATES st !! j = Some y → (j < i)%nat → y < period_begin) →
     lookup period_begin None st = (Ok ([u], [d]), st)).
Proof.
  split.
  - intros period_end Hall%first_index_from_none.
    unfold lookup, bind, get, first_index. simpl. by rewrite Hall.
  - intros i u d Hu Hd Hle Hmin.
    assert (list_find (λ d, period_begin ≤ d) (DATES st) = Some (i, d)) as Hf.
    { apply list_find_Some. split_and!; [done..|].
      intros j y Hj Hlt. specialize (Hmin j y Hj Hlt). lia. }
    unfold lookup, bind, get, lift, first_index, list_getitem. simpl.
    rewrite Hf. simpl. by rewrite Hu, Hd.
Qed.

Lemma lookup_next_witness :
  lookup wed_2026_11_04 None abc_state
    = (Ok (["B"%string], [mon_2026_11_09]), abc_state) ∧
  lookup (mon_2026_11_16 + 1) (Some (mon_2026_11_16 + 8)) abc_state
    = (Ok ([], []), abc_state).
Proof.
  destruct (lookup_next wed_2026_11_04 abc_state) as [_ Hnext].
  destruct (lookup_next (mon_2026_11_16 + 1) abc_state) as [Hnone _].
  split.
  - apply (Hnext 1%nat); [reflexivity|reflexivity|discriminate|].
    intros [|j] y Hy Hj; [|lia]. simpl in Hy. injection Hy as <-. reflexivity.
  - apply Hnone. repeat constructor.
Defined.

(** X9. When the user and date lists have the same length, [lookup] can
    fail in one way only: with [StopIteration], and exactly when
    [period_end] is given, some date is on or after [period_begin] and no
    date is after [period_end].  It never changes the state. *)
Theorem lookup_failure period_begin period_end st :
  length (USERS st) = length (DATES st) →
  (lookup period_begin period_end st).2 = st ∧
  (∀ e, (lookup period_begin period_end st).1 = Raise e → e = StopIteration) ∧
  ((lookup period_begin period_end st).1 = Raise StopIteration ↔
   ∃ pe, period_end = Some pe ∧
         Exists (λ d, period_begin ≤ d) (DATES st) ∧
         Forall (λ d, d ≤ pe) (DATES st)).
Proof.
  intros Hlen. unfold lookup, bind, get, lift, first_index. simpl.
  destruct (list_find (λ d, period_begin ≤ d) (DATES st)) as [[i x]|] eqn:Hb; simpl.
  - pose proof Hb as (Hi & Hx & _)%list_find_Some.
    assert (Exists (λ d, period_begin ≤ d) (DATES st)) as Hex.
    { apply Exists_exists. exists x. split; [|done].
      by eapply list_elem_of_lookup_2. }
    destruct period_end as [pe|].
    + destruct (list_find (λ d, pe < d) (DATES st)) as [[j y]|] eqn:He; simpl.
      * split_and!; [done|done|]. split; [done|].
        intros (pe' & Hpe & _ & Hall). simplify_eq.
        apply first_index_none in Hall. congruence.
      * apply first_index_none in He.
        split_and!; [done|by intros e [= <-]|]. split; [|done].
        intros _. by exists pe.
    + unfold list_getitem. rewrite Hi.
      destruct (lookup_lt_is_Some_2 (USERS st) i) as [u ->].
      { apply lookup_lt_Some in Hi. lia. }
      simpl. split_and!; [done|done|]. split; [done|].
      by intros (pe' & Hpe & _).
  - split_and!; [done|done|]. split; [done|].
    intros (pe & _ & Hex & _). apply first_index_from_none in Hb.
    apply Exists_exists in Hex as (d & Hd & Hle).
    rewrite Forall_forall in Hb. specialize (Hb d Hd). lia.
Qed.

Lemma lookup_failure_witness :
  (lookup wed_2026_11_04 (Some mon_2026_11_16) abc_state).2 = abc_state.
Proof.
  apply (lookup_failure wed_2026_11_04 (Some mon_2026_11_16) abc_state).
  reflexivity.
Defined.

Lemma filter_none {A} (P : A → Prop) `{!∀ x, Decision (P x)} (l : list A) :
  Forall (λ x, ¬ P x) l → filter P l = [].
Proof.
  induction 1 as [|x l Hx _ IH]; [done|]. by rewrite filter_cons_False.
Qed.

Lemma filter_all {A} (P : A → Prop) `{!∀ x, Decision (P x)} (l : list A) :
  Forall P l → filter P l = l.
Proof.
  induction 1 as [|x l Hx _ IH]; [done|]. by rewrite filter_cons_True, IH.
Qed.

(** In a list of entries sorted by date, the entries dated from [lo] to
    [hi] are those from the first one on or after [lo] up to, and without,
    the first one after [hi]. *)
Lemma sorted_window (l : list (string * date)) lo hi i j x y :
  non_decreasing l.*2 →
  l.*2 !! i = Some x → lo ≤ x →
  (∀ k z, l.*2 !! k = Some z → (k < i)%nat → z < lo) →
  l.*2 !! j = Some y → hi < y →
  (∀ k z, l.*2 !! k = Some z → (k < j)%nat → z ≤ hi) →
  filter (λ p, lo ≤ p.2 ≤ hi) l = take (j - i) (drop i l).
Proof.
  intros Hnd Hi Hx Hmin_i Hj Hy Hmin_j.
  assert (∀ k p, l !! k = Some p → l.*2 !! k = Some p.2) as Hsnd.
  { intros k p Hk. by rewrite list_lookup_fmap, Hk. }
  rewrite <-(take_drop i l) at 1. rewrite filter_app, filter_none; simpl.
  2:{ apply Forall_lookup. intros k p [Hk Hlt]%lookup_take_Some.
      specialize (Hmin_i k _ (Hsnd _ _ Hk) Hlt). lia. }
  assert (∀ k p, drop i l !! k = Some p → lo ≤ p.2) as Hlo.
  { intros k p Hk. rewrite lookup_drop in Hk.
    pose proof (Hnd i (i + k)%nat _ _ Hi (Hsnd _ _ Hk)). lia. }
  assert (∀ k p, l !! k = Some p → (j ≤ k)%nat → hi < p.2) as Hhi.
  { intros k p Hk Hjk. pose proof (Hnd j k _ _ Hj (Hsnd _ _ Hk) Hjk). lia. }
  destruct (decide (j ≤ i)%nat) as [Hji|Hij].
  - replace (j - i)%nat with 0%nat by lia. simpl. apply filter_none.
    apply Forall_lookup. intros k p Hk. pose proof Hk as Hk'.
    rewrite lookup_drop in Hk'. specialize (Hhi _ _ Hk'). lia.
  - rewrite <-(take_drop (j - i) (drop i l)) at 1.
    rewrite filter_app, filter_all, filter_none; [by rewrite app_nil_r|..].
    + apply Forall_lookup. intros k p Hk.
      rewrite !lookup_drop in Hk. specialize (Hhi _ _ Hk). lia.
    + apply Forall_lookup. intros k p [Hk Hlt]%lookup_take_Some.
      split; [by eapply Hlo|]. rewrite lookup_drop in Hk.
      apply (Hmin_j (i + k)%nat); [by apply Hsnd|lia].
Qed.

(** X10. On a schedule with as many users as dates and non-decreasing
    dates, one of which is after [period_end],
    [lookup(period_begin, period_end)] returns exactly the entries whose
    date lies between [period_begin] and [period_end] (both included), in
    schedule order, and leaves the state as it was. *)
Theorem lookup_period period_begin period_end st :
  length (USERS st) = length (DATES st) →
  non_decreasing (DATES st) →
  Exists (λ d, period_end < d) (DATES st) →
  lookup period_begin (Some period_end) st =
  (Ok ((filter (λ ud, period_begin ≤ ud.2 ≤ period_end)
          (zip (USERS st) (DATES st))).*1,
       (filter (λ ud, period_begin ≤ ud.2 ≤ period_end)
          (zip (USERS st) (DATES st))).*2), st).
Proof.
  intros Hlen Hnd Hex.
  apply Exists_exists in Hex as (d & Hd & Hgt).
  destruct (list_find_elem_of (λ d, period_end < d) _ d Hd Hgt) as [[j y] He].
  pose proof He as (Hj & Hy & Hmin_j)%list_find_Some.
  assert ((zip (USERS st) (DATES st)).*2 = DATES st) as Hsnd
    by (apply snd_zip; lia).
  assert ((zip (USERS st) (DATES st)).*1 = USERS st) as Hfst
    by (apply fst_zip; lia).
  destruct (list_find (λ d, period_begin ≤ d) (DATES st)) as [[i x]|] eqn:Hb.
  - pose proof Hb as (Hi & Hx & Hmin_i)%list_find_Some.
    rewrite (lookup_slice _ _ _ _ _ _ _ Hb He).
    rewrite (sorted_window _ period_begin period_end i j x y);
      rewrite ?Hsnd; try done.
    + unfold py_slice. by rewrite !fmap_take, !fmap_drop, Hfst, Hsnd.
    + intros k z Hk Hlt. specialize (Hmin_i k z Hk Hlt). lia.
    + intros k z Hk Hlt. specialize (Hmin_j k z Hk Hlt). lia.
  - unfold lookup, bind, get, first_index. simpl. rewrite Hb. simpl.
    rewrite filter_none; [done|].
    apply first_index_from_none in Hb. rewrite Forall_forall in Hb.
    apply Forall_forall. intros [u z] Hin. simpl.
    apply elem_of_zip_r in Hin. specialize (Hb z Hin). lia.
Qed.

Lemma lookup_period_witness :
  lookup wed_2026_11_04 (Some (mon_2026_11_09 + 1)) abc_state
  = (Ok (["B"%string], [mon_2026_11_09]), abc_state).
Proof.
  apply (lookup_period wed_2026_11_04 (mon_2026_11_09 + 1) abc_state).
  - reflexivity.
  - intros [|[|[|i]]] [|[|[|j]]] x y Hi Hj Hij; simpl in *;
      simplify_eq; try lia; discriminate.
  - do 2 apply Exists_cons_tl. apply Exists_cons_hd. reflexivity.
Defined.

(** ** Delaying *)

(** X11. When a date after today exists, [delay(True, delay_days)] moves
    every date from the first one after today on by [delay_days], provided
    each moved date is still a date of the calendar: the dates before it and
    [USERS] stay, and the result is what gets stored.  When one of the
    moved dates would leave the calendar, [delay] raises [OverflowError]
    and leaves the state as it was. *)
Theorem delay_all_shifts today delay_days st i x :
  first_after today (DATES st) i x →
  Forall date_valid (DATES st) →
  (Forall (λ d, date_valid (d + delay_days)) (drop i (DATES st)) →
   ∃ st',
     delay today true delay_days st = (Ok (), st') ∧
     USERS st' = USERS st ∧
     (∀ k, DATES st' !! k =
           if decide (k < i)%nat then DATES st !! k
           else (λ d, d + delay_days) <$> DATES st !! k) ∧
     DATAFILE st' = Some (snapshot (USERS st') (DATES st'))) ∧
  (Exists (λ d, ¬ date_valid (d + delay_days)) (drop i (DATES st)) →
   delay today true delay_days st = (Raise OverflowError, st)).
Proof.
  intros Hfirst Hvalid. pose proof Hfirst as (Hi & _ & _).
  apply first_index_after in Hfirst. rewrite delay_cases, Hfirst. split.
  - intros Hshift. rewrite shift_dates_Ok; [|by apply Forall_drop|done].
    eexists. split; [reflexivity|]. simpl. split_and!; [done| |done].
    intros k. apply shifted_lookup. apply lookup_lt_Some in Hi. lia.
  - intros (d & Hd & Hbad)%Exists_exists.
    destruct (result_mapM _ _) as [delayed|e] eqn:Hmap.
    + exfalso. revert Hmap. apply (result_mapM_not_Ok _ _ d Hd).
      by intros r (-> & Hr & _)%date_add_Ok_inv.
    + by rewrite (shift_dates_Raise _ _ _ Hmap).
Qed.

Lemma abc_dates_valid : Forall date_valid (DATES abc_state).
Proof. repeat constructor; discriminate. Qed.

Lemma delay_all_shifts_witness :
  (∃ st', delay wed_2026_11_04 true 2 abc_state = (Ok (), st') ∧
          DATES st' !! 0%nat = Some mon_2026_11_02 ∧
          DATES st' !! 2%nat = Some (mon_2026_11_16 + 2)) ∧
  delay wed_2026_11_04 true 3000000 abc_state = (Raise OverflowError, abc_state).
Proof.
  split.
  - destruct (delay_all_shifts wed_2026_11_04 2 abc_state 1 mon_2026_11_09
                abc_first_after abc_dates_valid) as [Hok _].
    destruct Hok as (st' & Hrun & _ & Hdates & _).
    { repeat constructor; discriminate. }
    exists st'.
    split_and!; [exact Hrun|apply (Hdates 0%nat)|apply (Hdates 2%nat)].
  - apply (delay_all_shifts wed_2026_11_04 3000000 abc_state 1 mon_2026_11_09
             abc_first_after abc_dates_valid).
    apply Exists_cons_hd. intros [_ Hmax]. apply Hmax. reflexivity.
Defined.

(** X12. When the first date after today is the last date of the
    schedule, [delay(False, delay_days)] checks no limit: every
    [delay_days] that keeps that date within the calendar is accepted, and
    only that last date changes. *)
Theorem delay_last_assignment today delay_days st i x :
  first_after today (DATES st) i x →
  S i = length (DATES st) →
  date_valid x → date_valid (x + delay_days) →
  ∃ st',
    delay today false delay_days st = (Ok (), st') ∧
    USERS st' = USERS st ∧
    DATES st' = <[i := x + delay_days]> (DATES st).
Proof.
  intros Hfirst%first_index_after Hlast Hx Hnew. rewrite delay_cases, Hfirst.
  rewrite decide_True by done. rewrite date_add_valid by done.
  eexists. by split_and!.
Qed.

Lemma delay_last_assignment_witness :
  ∃ st', delay (mon_2026_11_09 + 1) false 1000 abc_state = (Ok (), st') ∧
         DATES st' = [mon_2026_11_02; mon_2026_11_09; mon_2026_11_16 + 1000].
Proof.
  destruct (delay_last_assignment (mon_2026_11_09 + 1) 1000 abc_state 2
              mon_2026_11_16) as (st' & Hrun & _ & Hdates).
  - split_and!; [reflexivity|reflexivity|].
    intros [|[|j]] y Hy Hj; simpl in Hy; try lia; injection Hy as <-; discriminate.
  - reflexivity.
  - split; discriminate.
  - split; discriminate.
  - exists st'. split; [exact Hrun|exact Hdates].
Defined.

Lemma shifted_find today (dates : list date) i x a :
  0 ≤ a →
  list_find (λ d, today < d) dates = Some (i, x) →
  list_find (λ d, today < d)
    (take i dates ++ ((λ d, d + a) <$> drop i dates)) = Some (i, x + a).
Proof.
  intros Ha (Hi & Hx & Hmin)%list_find_Some.
  pose proof (lookup_lt_Some _ _ _ Hi) as Hlt.
  apply list_find_Some. split_and!.
  - rewrite shifted_lookup by lia. rewrite decide_False by lia. by rewrite Hi.
  - lia.
  - intros j y. rewrite shifted_lookup by lia. intros Hj Hji.
    rewrite decide_True in Hj by done. by eapply Hmin.
Qed.

(** X13. On a schedule of calendar dates, when delaying all upcoming
    assignments by [a >= 0] days returns and delaying them again, on the
    same day, by [b] days returns as well, the outcome is that of delaying
    them once by [a + b] days. *)
Theorem delay_all_additive today a b st :
  Forall date_valid (DATES st) →
  0 ≤ a →
  (delay today true a st).1 = Ok () →
  (delay today true b (delay today true a st).2).1 = Ok () →
  delay today true b (delay today true a st).2 = delay today true (a + b) st.
Proof.
  intros Hvalid Ha. rewrite (delay_cases today true a st),
    (delay_cases today true (a + b) st).
  destruct (list_find _ (DATES st)) as [[i x]|] eqn:Hfind; simpl; [|done].
  destruct (result_mapM _ (drop i (DATES st))) as [delayed|e] eqn:Hmap;
    simpl; [|done].
  apply shift_dates_Ok_inv in Hmap as [-> _]. intros _.
  rewrite delay_cases. simpl. rewrite (shifted_find _ _ _ _ _ Ha Hfind).
  pose proof Hfind as (Hi%lookup_lt_Some & _)%list_find_Some.
  assert (length (take i (DATES st)) = i) as Hlen
    by (rewrite length_take; lia).
  rewrite take_app_length', drop_app_length' by done.
  destruct (result_mapM _ ((λ x0, x0 + a) <$> drop i (DATES st)))
    as [delayed|e] eqn:Hmap; simpl; [|done].
  apply shift_dates_Ok_inv in Hmap as [-> Hvalid2]. intros _.
  rewrite <-list_fmap_compose in *.
  rewrite shift_dates_Ok; [|by apply Forall_drop|].
  - assert ((λ d, d + b) ∘ (λ d, d + a) <$> drop i (DATES st)
            = (λ d, d + (a + b)) <$> drop i (DATES st)) as Heq.
    { apply list_fmap_ext. intros k d _. simpl. lia. }
    by rewrite Heq.
  - rewrite Forall_fmap in Hvalid2. eapply Forall_impl; [exact Hvalid2|].
    simpl. intros d Hd. by rewrite Z.add_assoc.
Qed.

Lemma delay_all_additive_witness :
  delay wed_2026_11_04 true 3 (delay wed_2026_11_04 true 2 abc_state).2
  = delay wed_2026_11_04 true 5 abc_state.
Proof.
  apply (delay_all_additive wed_2026_11_04 2 3 abc_state abc_dates_valid);
    [discriminate|reflexivity|reflexivity].
Defined.

(** ** Swapping *)

(** X14. When one of the two names is not in [USERS], [swap] raises
    [ValueError] and leaves the state as it was. *)
Theorem swap_missing_user user_1 user_2 st :
  user_1 ∉ USERS st ∨ user_2 ∉ USERS st →
  swap user_1 user_2 st = (Raise ValueError, st).
Proof.
  intros Hmiss. rewrite swap_cases.
  destruct (list_find (λ y, y = user_1) (USERS st)) as [[i a]|] eqn:Ha; [|done].
  destruct (list_find (λ y, y = user_2) (USERS st)) as [[j b]|] eqn:Hb; [|done].
  apply list_find_Some in Ha as (Hi%list_elem_of_lookup_2 & -> & _).
  apply list_find_Some in Hb as (Hj%list_elem_of_lookup_2 & -> & _).
  by destruct Hmiss.
Qed.

Lemma swap_missing_user_witness :
  swap "A" "Z" abc_state = (Raise ValueError, abc_state).
Proof.
  apply swap_missing_user. right. simpl. intros Hin.
  repeat (apply elem_of_cons in Hin as [Hin|Hin]; [discriminate Hin|]).
  by apply not_elem_of_nil in Hin.
Defined.

Lemma NoDup_find (l : list string) i x :
  NoDup l → l !! i = Some x → list_find (λ y, y = x) l = Some (i, x).
Proof.
  intros Hnd Hi. apply list_find_Some. split_and!; [done..|].
  intros j y Hj Hlt ->. assert (j = i) by (by eapply NoDup_lookup). lia.
Qed.

(** X15. On a schedule with distinct names and as many users as dates,
    [swap(user_1, user_2)] makes the two users trade their dates as
    [get_user] reports them, and every other user keeps theirs. *)
Theorem swap_trades_dates st i j user_1 user_2 d1 d2 :
  NoDup (USERS st) → length (USERS st) = length (DATES st) →
  USERS st !! i = Some user_1 → DATES st !! i = Some d1 →
  USERS st !! j = Some user_2 → DATES st !! j = Some d2 →
  ∃ st',
    swap user_1 user_2 st = (Ok (), st') ∧
    get_user user_1 st' = (Ok ([user_1], [isoformat d2]), st') ∧
    get_user user_2 st' = (Ok ([user_2], [isoformat d1]), st') ∧
    (∀ k user d, USERS st !! k = Some user → DATES st !! k = Some d →
       user ≠ user_1 → user ≠ user_2 →
       get_user user st' = (Ok ([user], [isoformat d]), st')).
Proof.
  intros Hnd Hlen Hu1 Hd1 Hu2 Hd2.
  rewrite (swap_eq st user_1 user_2 i j) by (by apply NoDup_find).
  eexists. split; [reflexivity|].
  pose proof (swapped_NoDup _ _ _ _ _ Hu1 Hu2 Hnd) as Hnd'.
  assert (∀ k user d,
    <[i:=user_2]> (<[j:=user_1]> (USERS st)) !! k = Some user →
    DATES st !! k = Some d →
    get_user user
      (State (<[i:=user_2]> (<[j:=user_1]> (USERS st))) (DATES st)
         (Some (snapshot (<[i:=user_2]> (<[j:=user_1]> (USERS st))) (DATES st))))
    = (Ok ([user], [isoformat d]),
       State (<[i:=user_2]> (<[j:=user_1]> (USERS st))) (DATES st)
         (Some (snapshot (<[i:=user_2]> (<[j:=user_1]> (USERS st))) (DATES st)))))
    as Hget.
  { intros k user d Hk Hd. apply (get_user_found _ _ k); simpl; [done..|].
    intros k' Hk' Hk''. assert (k' = k) by (by eapply NoDup_lookup). lia. }
  split_and!.
  - apply (Hget j); [|done]. rewrite (swapped_lookup _ _ _ i j j Hu1 Hu2).
    destruct (decide (j = i)) as [->|]; [congruence|]. by rewrite decide_True.
  - apply (Hget i); [|done]. rewrite (swapped_lookup _ _ _ i j i Hu1 Hu2).
    by rewrite decide_True.
  - intros k user d Hk Hd Hne1 Hne2. apply (Hget k); [|done].
    rewrite (swapped_lookup _ _ _ i j k Hu1 Hu2).
    rewrite !decide_False; [done|congruence..].
Qed.

Lemma swap_trades_dates_witness :
  ∃ st', swap "A" "C" abc_state = (Ok (), st') ∧
         get_user "A" st' = (Ok (["A"%string], ["2026-11-16"%string]), st') ∧
         get_user "C" st' = (Ok (["C"%string], ["2026-11-02"%string]), st').
Proof.
  destruct (swap_trades_dates abc_state 0 2 "A" "C" mon_2026_11_02 mon_2026_11_16)
    as (st' & Hrun & Ha & Hc & _); try reflexivity.
  - apply NoDup_ListNoDup. repeat constructor; simpl; intuition discriminate.
  - exists st'. split_and!; [exact Hrun|exact Ha|exact Hc].
Defined.

(** ** Storing and loading *)

(** X16. What [save_data] wrote is what [read_data] loads: after
    [save_data(users, dates)] with distinct names, as many names as dates
    and dates of the calendar, [read_data] returns [(users, dates)]; and
    while no file exists [read_data] returns two empty lists. *)
Theorem save_then_read users dates st :
  NoDup users → length users = length dates → Forall date_valid dates →
  read_data (save_data users dates st).2
    = (Ok (users, dates), (save_data users dates st).2) ∧
  (DATAFILE st = None → read_data st = (Ok ([], []), st)).
Proof.
  intros Hnd Hlen Hvalid. split.
  - rewrite save_data_eq. unfold read_data, bind, get, lift. simpl.
    by rewrite deserialize_snapshot.
  - intros Hnone. unfold read_data, bind, get. simpl. by rewrite Hnone.
Qed.

Lemma save_then_read_witness :
  read_data (save_data ["A"%string] [mon_2026_11_09] empty_state).2
  = (Ok (["A"%string], [mon_2026_11_09]),
     (save_data ["A"%string] [mon_2026_11_09] empty_state).2).
Proof.
  apply (save_then_read ["A"%string] [mon_2026_11_09] empty_state).
  - apply NoDup_singleton.
  - reflexivity.
  - repeat constructor; discriminate.
Defined.

Lemma deserialize_dates_length strs dates :
  deserialize_dates strs = Ok dates → length dates = length strs.
Proof.
  revert dates. induction strs as [|s strs IH]; intros dates; simpl.
  - by intros [= <-].
  - destruct (fromisoformat s); [|done]. simpl.
    destruct (deserialize_dates strs) as [ds|]; [|done]. simpl.
    intros [= <-]. simpl. by rewrite (IH ds).
Qed.

Lemma deserialize_data_lengths_aux input_str users dates :
  deserialize_data input_str = Ok (users, dates) →
  length users = length dates.
Proof.
  unfold deserialize_data.
  destruct (dict_getitem input_str "assignments") as [[rows|d]|]; simpl; try done.
  destruct (deserialize_dates d.*2) as [ds|] eqn:Hds; simpl; [|done].
  intros [= <- <-]. apply deserialize_dates_length in Hds.
  by rewrite Hds, !length_fmap.
Qed.

(** X17. Whatever [deserialize_data] loads has one date per user. *)
Theorem deserialize_data_lengths input_str users dates :
  deserialize_data input_str = Ok (users, dates) →
  length users = length dates.
Proof. apply deserialize_data_lengths_aux. Qed.

Lemma deserialize_data_lengths_witness :
  length ["A"%string] = length [mon_2026_11_09].
Proof.
  apply (deserialize_data_lengths
           [("assignments", Narrow [("A", "2026-11-09")])]%string).
  reflexivity.
Defined.

(** X18. On dates of the calendar, [serialize_dates] returns one string
    per date, [deserialize_dates] turns them back into the same dates, and
    different dates are written as different strings. *)
Theorem dates_round_trip dates :
  Forall date_valid dates →
  ∃ strs,
    serialize_dates (PDate <$> dates) = Ok strs ∧
    length strs = length dates ∧
    deserialize_dates strs = Ok dates ∧
    (∀ i j d1 d2 s, dates !! i = Some d1 → dates !! j = Some d2 →
       strs !! i = Some s → strs !! j = Some s → d1 = d2).
Proof.
  intros Hvalid. exists (isoformat <$> dates).
  split_and!.
  - apply serialize_dates_PDate.
  - by rewrite length_fmap.
  - by apply deserialize_dates_isoformat.
  - intros i j d1 d2 s Hi Hj Hsi Hsj.
    rewrite list_lookup_fmap, Hi in Hsi. rewrite list_lookup_fmap, Hj in Hsj.
    simpl in *. simplify_eq.
    rewrite Forall_lookup in Hvalid.
    pose proof (fromisoformat_isoformat d1 (Hvalid _ _ Hi)) as H1.
    pose proof (fromisoformat_isoformat d2 (Hvalid _ _ Hj)) as H2.
    congruence.
Qed.

Lemma dates_round_trip_witness :
  ∃ strs, serialize_dates (PDate <$> [mon_2026_11_02; mon_2026_11_09]) = Ok strs ∧
          deserialize_dates strs = Ok [mon_2026_11_02; mon_2026_11_09].
Proof.
  destruct (dates_round_trip [mon_2026_11_02; mon_2026_11_09])
    as (strs & Hser & _ & Hde & _).
  - repeat constructor; discriminate.
  - exists strs. split; [exact Hser|exact Hde].
Defined.

(** * Properties of the routes *)

Lemma serialize_data_wide users dates :
  serialize_data users (PDate <$> dates) true = Ok (rows users dates).
Proof.
  unfold serialize_data, data_to_dict. by rewrite serialize_dates_PDate.
Qed.

Lemma load_if_empty_loaded st :
  USERS st ≠ [] → load_if_empty st = (Ok (), st).
Proof.
  intros Hne. unfold load_if_empty, bind, get. simpl.
  by rewrite decide_False.
Qed.

Lemma get_user_route_loaded cfg today m username st :
  USERS st ≠ [] →
  get_user_route cfg today m username st =
  match m with
  | GET =>
      if decide (username ∈ USERS st) then
        bind (get_user username) (λ ud,
          bind (lift (serialize_data ud.1 (PStr <$> ud.2) true)) (λ body,
            ret (RespJson body))) st
      else (Raise (HTTPException 404), st)
  | DELETE =>
      if decide (username ∈ USERS st)
      then bind (delete_user today username) (λ _, ret (RespText "" 200)) st
      else (Raise (HTTPException 404), st)
  | PUT =>
      if decide (username ∈ USERS st)
      then (Ok (RespText "User already in list" 204), st)
      else
        bind (add_user cfg today username) (λ _,
          bind get (λ st',
            bind (lift (serialize_data (USERS st') (PDate <$> DATES st') true))
              (λ body, ret (RespJson body)))) st
  end.
Proof.
  intros Hne. unfold get_user_route.
  unfold bind at 1. unfold get at 1. unfold bind at 1.
  rewrite decide_False by done. unfold ret at 1. unfold bind at 1. unfold get at 1.
  destruct m; destruct (decide (username ∈ USERS st)); try done.
  unfold bind. by destruct (get_user username st) as [[[users dates]|] st'].
Qed.

(** X19. For a user of the schedule (as many users as dates), the GET
    branch of [get_user_route] ends in an [AttributeError] and the DELETE
    branch in a [TypeError]: the dates [get_user] hands back are strings,
    on which neither [isoformat()] nor the comparison with today works.
    The state is left as it was, so the user is neither shown nor
    removed. *)
Theorem get_user_route_present_fails cfg today username st :
  username ∈ USERS st → length (USERS st) = length (DATES st) →
  get_user_route cfg today GET username st = (Raise AttributeError, st) ∧
  get_user_route cfg today DELETE username st = (Raise TypeError, st).
Proof.
  intros Hin Hlen.
  assert (USERS st ≠ []) as Hne by (intros Hnil; rewrite Hnil in Hin; set_solver).
  rewrite !get_user_route_loaded by done. rewrite !decide_True by done.
  split.
  - unfold bind. rewrite get_user_eq.
    destruct (dict_getitem_is_Ok
      (dict_of_pairs (zip (USERS st) (isoformat <$> DATES st))) username)
      as [v ->]; [|done].
    apply dict_of_pairs_keys. rewrite fst_zip; [done|].
    rewrite length_fmap. lia.
  - unfold bind. by rewrite delete_user_present.
Qed.

Lemma get_user_route_present_fails_witness :
  get_user_route default_config wed_2026_11_04 GET "B" abc_state
    = (Raise AttributeError, abc_state) ∧
  get_user_route default_config wed_2026_11_04 DELETE "B" abc_state
    = (Raise TypeError, abc_state).
Proof.
  apply get_user_route_present_fails; [|reflexivity].
  apply list_elem_of_further, list_elem_of_here.
Defined.

(** X20. With a non-empty schedule in memory, GET and DELETE for a name
    that is not in it are answered by [abort(404)], the state left as it
    was. *)
Theorem get_user_route_not_found cfg today username st :
  USERS st ≠ [] → username ∉ USERS st →
  get_user_route cfg today GET username st = (Raise (HTTPException 404), st) ∧
  get_user_route cfg today DELETE username st = (Raise (HTTPException 404), st).
Proof.
  intros Hne Hnot. rewrite !get_user_route_loaded by done.
  by rewrite !decide_False by done.
Qed.

Lemma get_user_route_not_found_witness :
  get_user_route default_config wed_2026_11_04 GET "Z" a_state
    = (Raise (HTTPException 404), a_state) ∧
  get_user_route default_config wed_2026_11_04 DELETE "Z" a_state
    = (Raise (HTTPException 404), a_state).
Proof.
  apply get_user_route_not_found; [discriminate|].
  simpl. intros Hin. apply elem_of_cons in Hin as [Hin|Hin]; [discriminate Hin|].
  by apply not_elem_of_nil in Hin.
Defined.

(** X21. With a non-empty schedule in memory, PUT for a name that is not
    in it runs [add_user]: when [add_user] returns, the route answers with
    the rows of the whole new schedule, one [{'name': .., 'date': ..}] per
    user in schedule order; when [add_user] raises, the route raises the
    same exception from the state [add_user] left.  [add_user] returns
    whenever the last date plus the interval is a date of the calendar. *)
Theorem get_user_route_put_new cfg today username st :
  USERS st ≠ [] → username ∉ USERS st →
  (∀ st', add_user cfg today username st = (Ok (), st') →
     get_user_route cfg today PUT username st
       = (Ok (RespJson (rows (USERS st') (DATES st'))), st')) ∧
  (∀ e st', add_user cfg today username st = (Raise e, st') →
     get_user_route cfg today PUT username st = (Raise e, st')) ∧
  (∀ last_date,
     last (DATES st) = Some last_date → date_valid last_date →
     date_valid (last_date + ASSIGNMENT_INTERVAL_DAYS cfg) →
     (get_user_route cfg today PUT username st).1
       = Ok (RespJson (rows (USERS st ++ [username])
                            (DATES st ++ [last_date + ASSIGNMENT_INTERVAL_DAYS cfg])))).
Proof.
  intros Hne Hnot. rewrite get_user_route_loaded by done.
  rewrite decide_False by done. unfold bind. split_and!.
  - intros st' ->. unfold get, lift. simpl. by rewrite serialize_data_wide.
  - by intros e st' ->.
  - intros last_date Hlast Hvalid Hnew. rewrite add_user_eq.
    unfold new_date_for. rewrite Hlast, date_add_valid by done.
    unfold saved, get, lift. simpl. by rewrite serialize_data_wide.
Qed.

Lemma get_user_route_put_new_witness :
  (get_user_route default_config wed_2026_11_04 PUT "B" a_state).1
  = Ok (RespJson [("assignments",
          Wide [[("name", "A"); ("date", "2026-11-09")];
                [("name", "B"); ("date", "2026-11-16")]])]%string).
Proof.
  destruct (get_user_route_put_new default_config wed_2026_11_04 "B" a_state)
    as (_ & _ & Hput); [discriminate| |].
  - simpl. intros Hin. apply elem_of_cons in Hin as [Hin|Hin]; [discriminate Hin|].
    by apply not_elem_of_nil in Hin.
  - apply (Hput mon_2026_11_09); [reflexivity|split; discriminate..].
Defined.

(** X22. A route that finds [USERS] empty first loads the stored schedule
    into [USERS] and [DATES]; a PUT for a name of the stored schedule is
    then answered "User already in list" (204) although memory was empty.
    With no stored file the globals are (re)set to empty lists. *)
Theorem lazy_load users dates username cfg today st :
  USERS st = [] →
  NoDup users → length users = length dates → Forall date_valid dates →
  DATAFILE st = Some (snapshot users dates) →
  load_if_empty st = (Ok (), State users dates (DATAFILE st)) ∧
  (username ∈ users →
   get_user_route cfg today PUT username st
   = (Ok (RespText "User already in list" 204),
      State users dates (DATAFILE st))).
Proof.
  intros Hempty Hnd Hlen Hvalid Hfile.
  assert (read_data st = (Ok (users, dates), st)) as Hread.
  { unfold read_data, bind, get, lift. simpl.
    by rewrite Hfile, deserialize_snapshot. }
  split.
  - unfold load_if_empty, bind, get. simpl. rewrite decide_True by done.
    by rewrite Hread.
  - intros Hin. unfold get_user_route.
    unfold bind at 1. unfold get at 1. unfold bind at 1.
    rewrite decide_True by done. unfold bind at 1. rewrite Hread.
    unfold bind, get, set_USERS, set_DATES. simpl. by rewrite decide_True.
Qed.

Lemma lazy_load_witness :
  load_if_empty
    (State [] [] (Some (snapshot ["A"%string] [mon_2026_11_09])))
  = (Ok (), State ["A"%string] [mon_2026_11_09]
              (Some (snapshot ["A"%string] [mon_2026_11_09]))).
Proof.
  apply (lazy_load ["A"%string] [mon_2026_11_09] "A" default_config
           wed_2026_11_04
           (State [] [] (Some (snapshot ["A"%string] [mon_2026_11_09])))).
  - reflexivity.
  - apply NoDup_singleton.
  - reflexivity.
  - repeat constructor; discriminate.
  - reflexivity.
Defined.

(** X23. [show_all] shows what is stored, not what is in memory: it
    answers with the rows of the stored schedule (with no rows while no
    file exists) and never changes the state. *)
Theorem show_all_stored users dates st :
  NoDup users → length users = length dates → Forall date_valid dates →
  (DATAFILE st = Some (snapshot users dates) →
   show_all st = (Ok (RespJson (rows users dates)), st)) ∧
  (DATAFILE st = None → show_all st = (Ok (RespJson (rows [] [])), st)).
Proof.
  intros Hnd Hlen Hvalid.
  split; intros Hfile; unfold show_all, read_data, bind, get, lift; simpl;
    rewrite Hfile; simpl.
  - rewrite deserialize_snapshot by done. by rewrite serialize_data_wide.
  - done.
Qed.

Lemma show_all_stored_witness :
  show_all (State ["X"%string] [] (Some (snapshot ["A"%string] [mon_2026_11_09])))
  = (Ok (RespJson [("assignments",
            Wide [[("name", "A"); ("date", "2026-11-09")]])]%string),
     State ["X"%string] [] (Some (snapshot ["A"%string] [mon_2026_11_09]))).
Proof.
  apply (show_all_stored ["A"%string] [mon_2026_11_09]).
  - apply NoDup_singleton.
  - reflexivity.
  - repeat constructor; discriminate.
  - reflexivity.
Defined.

Lemma regenerate_route_loaded cfg today st :
  USERS st ≠ [] →
  regenerate_route cfg today st =
  match initialize_assignment cfg today (USERS st) with
  | Ok (users', dates') =>
      (Ok (RespJson (rows users' dates')), (saved users' dates').2)
  | Raise e => (Raise e, st)
  end.
Proof.
  intros Hne. unfold regenerate_route.
  unfold bind at 1. rewrite load_if_empty_loaded by done.
  unfold bind at 1. unfold get at 1. unfold bind at 1.
  rewrite regenerate_eq.
  destruct (initialize_assignment cfg today (USERS st))
    as [[users' dates']|e]; [|done].
  unfold saved, bind, get, lift. simpl. by rewrite serialize_data_wide.
Qed.

(** X24. With a non-empty schedule in memory, [regenerate_route] runs
    [regenerate] on the users in memory: when [regenerate] returns, the
    users and their order are kept and the route answers with the rows of
    the new schedule; when [regenerate] raises, the route raises the same
    exception and the state is left as it was. *)
Theorem regenerate_route_keeps_users cfg today st :
  USERS st ≠ [] →
  (∀ st', regenerate cfg today (USERS st) st = (Ok (), st') →
     USERS st' = USERS st ∧
     regenerate_route cfg today st
       = (Ok (RespJson (rows (USERS st') (DATES st'))), st')) ∧
  (∀ e, (regenerate cfg today (USERS st) st).1 = Raise e →
     regenerate_route cfg today st = (Raise e, st)).
Proof.
  intros Hne. rewrite regenerate_route_loaded by done. rewrite regenerate_eq.
  destruct (initialize_assignment cfg today (USERS st))
    as [[users' dates']|e0] eqn:Hinit.
  - apply initialize_assignment_Ok_inv in Hinit as [-> _]. split.
    + intros st' Hsaved. by injection Hsaved as <-.
    + intros e He. discriminate He.
  - split; [intros st' Hsaved; discriminate Hsaved|].
    intros e He. simpl in He. by injection He as ->.
Qed.

Lemma regenerate_route_keeps_users_witness :
  ∃ st', regenerate_route default_config wed_2026_11_04 abc_state
         = (Ok (RespJson (rows (USERS st') (DATES st'))), st') ∧
         USERS st' = ["A"; "B"; "C"]%string ∧
         DATES st' = [mon_2026_11_09; mon_2026_11_16; mon_2026_11_16 + 7].
Proof.
  destruct (regenerate_route_keeps_users default_config wed_2026_11_04 abc_state)
    as [Hok _]; [discriminate|].
  exists (regenerate default_config wed_2026_11_04 (USERS abc_state) abc_state).2.
  destruct (Hok _ eq_refl) as [Husers Hroute].
  split_and!; [exact Hroute|exact Husers|reflexivity].
Defined.

(** X25. With a non-empty schedule in memory, [swap_route] answers
    [abort(400)] unless exactly two [user] parameters are sent, the state
    left as it was; with two it runs [swap] on them and, when [swap]
    returns, answers with the rows of the new schedule. *)
Theorem swap_route_arity swap_users st :
  USERS st ≠ [] →
  (length swap_users ≠ 2%nat →
   swap_route swap_users st = (Raise (HTTPException 400), st)) ∧
  (∀ user_1 user_2 st',
     swap_users = [user_1; user_2] →
     swap user_1 user_2 st = (Ok (), st') →
     swap_route swap_users st
       = (Ok (RespJson (rows (USERS st') (DATES st'))), st')).
Proof.
  intros Hne. unfold swap_route. split.
  - intros Hlen. unfold bind. rewrite load_if_empty_loaded by done.
    by destruct swap_users as [|u1 [|u2 [|u3 us]]].
  - intros user_1 user_2 st' -> Hswap.
    unfold bind at 1. rewrite load_if_empty_loaded by done.
    unfold bind at 1. rewrite Hswap. unfold bind, get, lift. simpl.
    by rewrite serialize_data_wide.
Qed.

Lemma swap_route_arity_witness :
  swap_route ["A"; "B"; "C"]%string abc_state
  = (Raise (HTTPException 400), abc_state).
Proof.
  apply (swap_route_arity ["A"; "B"; "C"]%string abc_state);
    [discriminate|]. simpl. lia.
Defined.

Lemma to_date_ValueError s e : to_date s = Raise e → e = ValueError.
Proof.
  unfold to_date, fromisoformat. intros H.
  repeat case_match; simplify_eq; done.
Qed.

(** X26. [lookup_route] never answers with a parsing error: with a
    non-empty schedule in memory it runs [lookup] from the date sent as
    [from], or from today when [from] is missing or not a date, up to the
    date sent as [to], or without end when [to] is missing or not a date,
    and answers with the rows [lookup] returned. *)
Theorem lookup_route_defaults today from_arg to_arg st :
  USERS st ≠ [] →
  lookup_route today from_arg to_arg st =
  let period_begin :=
    match from_arg with
    | Some s => match to_date s with Ok d => d | Raise _ => today end
    | None => today
    end in
  let period_end :=
    match to_arg with
    | Some s => match to_date s with Ok d => Some d | Raise _ => None end
    | None => None
    end in
  match lookup period_begin period_end st with
  | (Ok (users, dates), st') => (Ok (RespJson (rows users dates)), st')
  | (Raise e, st') => (Raise e, st')
  end.
Proof.
  intros Hne. unfold lookup_route.
  unfold bind at 1. rewrite load_if_empty_loaded by done.
  assert (args_get from_arg today to_date
          = Ok match from_arg with
               | Some s => match to_date s with Ok d => d | Raise _ => today end
               | None => today
               end) as Hfrom.
  { destruct from_arg as [s|]; [|done]. simpl.
    destruct (to_date s) as [d|e] eqn:Hs; [done|].
    by rewrite (to_date_ValueError _ _ Hs). }
  assert (args_get to_arg None (λ s, rbind (to_date s) (λ d, Ok (Some d)))
          = Ok match to_arg with
               | Some s => match to_date s with Ok d => Some d | Raise _ => None end
               | None => None
               end) as Hto.
  { destruct to_arg as [s|]; [|done]. simpl.
    destruct (to_date s) as [d|e] eqn:Hs; [done|].
    by rewrite (to_date_ValueError _ _ Hs). }
  unfold bind at 1. unfold lift at 1. rewrite Hfrom.
  unfold bind at 1. unfold lift at 1. rewrite Hto.
  unfold bind at 1. simpl.
  destruct (lookup _ _ st) as [[[users dates]|e] st']; [|done].
  unfold bind, lift. by rewrite serialize_data_wide.
Qed.

Lemma lookup_route_defaults_witness :
  lookup_route wed_2026_11_04 (Some "next week"%string) None abc_state
  = (Ok (RespJson [("assignments",
            Wide [[("name", "B"); ("date", "2026-11-09")]])]%string), abc_state).
Proof.
  rewrite (lookup_route_defaults wed_2026_11_04 (Some "next week"%string) None
             abc_state); [reflexivity|discriminate].
Defined.

(** X27. The PUT branch of [get_user_route] keeps the invariant of the
    data model whenever it answers: from a non-empty schedule with as many
    users as dates, non-decreasing dates and distinct names, and with a
    positive interval, a PUT that returns a response leaves a schedule
    with the same three properties.  A PUT that raises instead leaves one
    user more than there are dates. *)
Theorem put_route_keeps_invariant cfg today username st :
  0 < ASSIGNMENT_INTERVAL_DAYS cfg →
  USERS st ≠ [] → schedule_invariant st →
  (∀ resp st',
     get_user_route cfg today PUT username st = (Ok resp, st') →
     schedule_invariant st') ∧
  (∀ e st',
     get_user_route cfg today PUT username st = (Raise e, st') →
     length (USERS st') = S (length (DATES st'))).
Proof.
  intros Hpos Hne Hinv. rewrite get_user_route_loaded by done.
  destruct (decide (username ∈ USERS st)) as [Hin|Hnot].
  { split; [by intros resp st' [= _ <-]|by intros e st' [=]]. }
  pose proof (run_op_invariant cfg today (OpAddUser username) st Hpos) as Hstep.
  simpl in Hstep. unfold bind.
  destruct (add_user cfg today username st) as [[[]|e0] st1] eqn:Hadd; simpl.
  - split.
    + unfold get, lift. simpl. rewrite serialize_data_wide.
      intros resp st' [= _ <-]. by apply Hstep.
    + unfold get, lift. simpl. rewrite serialize_data_wide.
      by intros e st' [=].
  - split; [by intros resp st' [=]|].
    intros e st' [= _ <-]. rewrite add_user_eq in Hadd.
    destruct (new_date_for cfg today st); [done|].
    injection Hadd as _ <-. simpl. rewrite length_app. simpl.
    destruct Hinv as [-> _]. lia.
Qed.

Lemma put_route_keeps_invariant_witness :
  schedule_invariant
    (get_user_route default_config wed_2026_11_04 PUT "B" a_state).2.
Proof.
  destruct (put_route_keeps_invariant default_config wed_2026_11_04 "B" a_state)
    as [Hok _]; [reflexivity|discriminate|exact a_state_invariant|].
  eapply Hok. reflexivity.
Defined.

Lemma dict_setitem_NoDup {V} k (v : V) d :
  NoDup d.*1 → NoDup (dict_setitem k v d).*1.
Proof.
  induction d as [|[k0 v0] d IH]; simpl.
  - intros _. apply NoDup_singleton.
  - intros [Hk0 Hnd]%NoDup_cons. destruct (decide (k0 = k)) as [->|Hne]; simpl.
    + by apply NoDup_cons.
    + apply NoDup_cons. split; [|by apply IH].
      rewrite dict_setitem_keys. intros [?|?]; done.
Qed.

Lemma dict_of_pairs_keys_NoDup {V} (pairs : list (string * V)) :
  NoDup (dict_of_pairs pairs).*1.
Proof.
  induction pairs as [|[k v] pairs IH] using rev_ind.
  - apply NoDup_nil_2.
  - rewrite dict_of_pairs_snoc. by apply dict_setitem_NoDup.
Qed.

(** X28. Whatever lists [save_data] is given, a schedule loaded back with
    [read_data] has distinct user names and one date per user: a name that
    stood twice in [USERS] is stored once. *)
Theorem stored_names_distinct users dates st users' dates' st' :
  read_data (save_data users dates st).2 = (Ok (users', dates'), st') →
  NoDup users' ∧ length users' = length dates'.
Proof.
  rewrite save_data_eq. unfold read_data, bind, get, lift. simpl.
  intros Hread. injection Hread as Hde _.
  split; [|by eapply deserialize_data_lengths_aux].
  unfold deserialize_data, snapshot in Hde. simpl in Hde.
  destruct (deserialize_dates _) as [ds|]; simpl in Hde; [|done].
  injection Hde as <- _. apply dict_of_pairs_keys_NoDup.
Qed.

Lemma stored_names_distinct_witness :
  NoDup ["A"%string] ∧ length ["A"%string] = length [mon_2026_11_16].
Proof.
  apply (stored_names_distinct ["A"; "A"]%string
           [mon_2026_11_09; mon_2026_11_16] empty_state
           ["A"%string] [mon_2026_11_16]
           (save_data ["A"; "A"]%string [mon_2026_11_09; mon_2026_11_16]
              empty_state).2).
  reflexivity.
Defined.

(** ** Dates of the calendar *)

(** X30. Every date of a schedule the engine can reach from the empty
    schedule, under any arguments and whether or not a call raised, lies
    between 0001-01-01 and 9999-12-31: date arithmetic that would leave
    that range raises [OverflowError] before anything is stored. *)
Theorem reachable_dates_valid cfg st :
  reachable cfg st → Forall date_valid (DATES st).
Proof.
  induction 1 as [|st today o _ IH].
  - apply Forall_nil_2.
  - by apply run_op_dates_valid.
Qed.

Lemma reachable_dates_valid_witness :
  Forall date_valid
    (DATES (run_op default_config wed_2026_11_04 (OpDelay true 2912130)
              (run_op default_config wed_2026_11_04 (OpAddUser "A")
                 empty_state).2).2).
Proof.
  apply (reachable_dates_valid default_config).
  apply reachable_step, reachable_step, reachable_empty.
Defined.
